(** * Transportation emissions model: the notebook's table and recalculator

    A shallow embedding of [transportation/emissions-model.ipynb]: the
    emission-factor table of the first code cell and the function [recalc]
    of the second one, with the values they compute on as Python has them:
    unbounded integers ([Z]), IEEE 754 binary64 floats (the Standard
    Library's executable [spec_float] model, round to nearest even),
    strings, lists, and dictionaries in insertion order.  Python exceptions
    are the [Raise] results of a small error monad. *)

From Stdlib Require Import ZArith Bool List String Ascii Lia.
From Stdlib Require Import DecimalString.
From Stdlib Require Import Floats.SpecFloat.
Import ListNotations.

Local Open Scope string_scope.
Local Open Scope Z_scope.

(** ** Python values and exceptions *)

Module Py.

Inductive exn : Type :=
| KeyError
| IndexError
| OverflowError
| ZeroDivisionError.

Inductive result (A : Type) : Type :=
| Ok (a : A)
| Raise (e : exn).
Arguments Ok {A} a.
Arguments Raise {A} e.

Definition bind {A B : Type} (c : result A) (k : A -> result B) : result B :=
  match c with
  | Ok a => k a
  | Raise e => Raise e
  end.

(** [for x in xs] building a list, left to right, stopping at the first
    exception. *)
Fixpoint mapM {A B : Type} (f : A -> result B) (xs : list A) : result (list B) :=
  match xs with
  | [] => Ok []
  | x :: rest =>
      bind (f x) (fun y => bind (mapM f rest) (fun ys => Ok (y :: ys)))
  end.

(** *** float: IEEE 754 binary64 *)

Definition prec : Z := 53.
Definition emax : Z := 1024.

Definition float : Type := spec_float.

Definition float_mul : float -> float -> float := SFmul prec emax.
Definition float_div : float -> float -> float := SFdiv prec emax.

(** The correctly rounded double of an integer, before the range check. *)
Definition Z2float (z : Z) : float := binary_normalize prec emax z 0 false.

(** [float(z)]: integers beyond the double range raise [OverflowError]. *)
Definition float_of_int (z : Z) : result float :=
  match Z2float z with
  | S754_infinity _ => Raise OverflowError
  | f => Ok f
  end.

Definition is_zero (f : float) : bool :=
  match f with
  | S754_zero _ => true
  | _ => false
  end.

(** [x * z] for a float [x] and an int [z]. *)
Definition float_mul_int (x : float) (z : Z) : result float :=
  bind (float_of_int z) (fun y => Ok (float_mul x y)).

(** [x / z] for a float [x] and an int [z]. *)
Definition float_truediv_int (x : float) (z : Z) : result float :=
  bind (float_of_int z) (fun y =>
    if is_zero y then Raise ZeroDivisionError else Ok (float_div x y)).

(** [a / b] for two ints.  Python returns the correctly rounded quotient;
    for operands below 2^53 in absolute value (all the notebook has) both
    conversions are exact and the IEEE quotient is that double. *)
Definition int_truediv (a b : Z) : result float :=
  if b =? 0 then Raise ZeroDivisionError
  else Ok (float_div (Z2float a) (Z2float b)).

(** [x >= 0.0] *)
Definition float_ge0 (x : float) : bool := SFleb (S754_zero false) x.

(** [x < y] *)
Definition float_lt (x y : float) : bool := SFltb x y.

(** *** Formatting with [:.1f] *)

Definition round_half_even (num den : Z) : Z :=
  let q := num / den in
  match 2 * (num mod den) ?= den with
  | Lt => q
  | Eq => if Z.even q then q else q + 1
  | Gt => q + 1
  end.

(** The magnitude [m * 2^e] in tenths, rounded half to even. *)
Definition tenths (m : positive) (e : Z) : Z :=
  match e with
  | Zneg k => round_half_even (10 * Zpos m) (2 ^ Zpos k)
  | _ => 10 * Zpos m * 2 ^ e
  end.

Definition str_of_nat_Z (n : Z) : string := NilZero.string_of_uint (N.to_uint (Z.to_N n)).

Definition sign_str (s : bool) : string := if s then "-" else "".

Definition format_1f (x : float) : string :=
  match x with
  | S754_nan => "nan"
  | S754_infinity s => sign_str s ++ "inf"
  | S754_zero s => sign_str s ++ "0.0"
  | S754_finite s m e =>
      let n := tenths m e in
      sign_str s ++ str_of_nat_Z (n / 10) ++ "." ++ str_of_nat_Z (n mod 10)
  end.

(** *** list and dict *)

Definition list_getitem {A : Type} (l : list A) (i : Z) : result A :=
  let i' := if i <? 0 then i + Z.of_nat (List.length l) else i in
  if i' <? 0 then Raise IndexError
  else match nth_error l (Z.to_nat i') with
       | Some a => Ok a
       | None => Raise IndexError
       end.

(** A dictionary with string keys, in insertion order. *)
Definition dict (V : Type) : Type := list (string * V).

Fixpoint dict_getitem {V : Type} (d : dict V) (key : string) : result V :=
  match d with
  | [] => Raise KeyError
  | (k, v) :: rest => if String.eqb key k then Ok v else dict_getitem rest key
  end.

Definition keys {V : Type} (d : dict V) : list string := map fst d.

End Py.

Import Py.

Declare Scope py_scope.
Notation "x <- c ;; k" := (bind c (fun x => k))
  (at level 61, c at next level, right associativity) : py_scope.
Local Open Scope py_scope.

(** ** The notebook *)

Module Emissions.

(** *** First cell: the emission factors *)

(** g CO2e / pkm [OWID, PSI]. 0 means no data. *)
Definition gco2e_per_km : dict (list Z) :=
  [ ("bicycle", [0; 6]);
    ("coach bus", [27; 57]);
    ("gasoline car", [170; 242]);
    ("electric car", [48; 110]);
    ("motorbike", [114; 163]);
    ("tgv", [4; 21]);
    ("rail UK", [35; 0]);
    ("rail CH", [0; 7]);
    ("tram", [29; 43]);
    ("flight short", [246; 292]);
    ("flight long", [253; 285]) ].

(** [[v[0] / 1000, v[1] / 1000]] *)
Definition per_1000 (v : list Z) : result (list float) :=
  v0 <- list_getitem v 0 ;;
  a <- int_truediv v0 1000 ;;
  v1 <- list_getitem v 1 ;;
  b <- int_truediv v1 1000 ;;
  Ok [a; b].

(** [{k: [v[0] / 1000, v[1] / 1000] for k, v in gco2e_per_km.items()}] *)
Definition kgco2e_per_km_cell : result (dict (list float)) :=
  mapM (fun kv : string * list Z => r <- per_1000 (snd kv) ;; Ok (fst kv, r))
       gco2e_per_km.

(** [heli_kg_co2e_per_h = 966.489]: the literal is the double nearest to
    966489 / 1000. *)
Definition heli_kg_co2e_per_h : float := float_div (Z2float 966489) (Z2float 1000).

(** The global the cell binds (the cell raises nothing, see
    [kgco2e_per_km_bound]). *)
Definition kgco2e_per_km : dict (list float) :=
  match kgco2e_per_km_cell with
  | Ok d => d
  | Raise _ => []
  end.

(** *** Second cell: the controls *)

Record RadioButtons : Type :=
  { radio_options : list string; radio_value : string }.

Definition radio_model : RadioButtons :=
  {| radio_options := ["OWID"; "PSI"]; radio_value := "PSI" |}.

Record IntSlider : Type :=
  { slider_value : Z; slider_min : Z; slider_max : Z; slider_step : Z }.

Definition slider_distance_km : IntSlider :=
  {| slider_value := 200; slider_min := 0; slider_max := 400; slider_step := 10 |}.

Definition slider_car_passengers : IntSlider :=
  {| slider_value := 1; slider_min := 1; slider_max := 5; slider_step := 1 |}.

(** The values a slider can take. *)
Definition slider_values (s : IntSlider) : list Z :=
  map (fun i => slider_min s + Z.of_nat i * slider_step s)
      (seq 0 (S (Z.to_nat ((slider_max s - slider_min s) / slider_step s)))).

(** *** Second cell: [recalc] *)

(** [idx = 0 if model == 'OWID' else 1] *)
Definition dataset_idx (model : string) : Z :=
  if String.eqb model "OWID" then 0 else 1.

(** [kgco2e_per_km[mode][idx]] *)
Definition factor (mode : string) (idx : Z) : result float :=
  row <- dict_getitem kgco2e_per_km mode ;;
  list_getitem row idx.

(** [kgco2e_per_km[mode][idx] * distance_km] *)
Definition per_trip (mode : string) (idx distance_km : Z) : result float :=
  f <- factor mode idx ;;
  float_mul_int f distance_km.

(** [kgco2e_per_km[mode][idx] * distance_km / car_passangers] *)
Definition per_trip_shared (mode : string) (idx distance_km car_passangers : Z)
  : result float :=
  x <- per_trip mode idx distance_km ;;
  float_truediv_int x car_passangers.

(** The dictionary display [data = {...}], entries evaluated in order. *)
Definition recalc_data (model : string) (distance_km car_passangers : Z)
  : result (dict float) :=
  let idx := dataset_idx model in
  bicycle <- per_trip "bicycle" idx distance_km ;;
  coach_bus <- per_trip "coach bus" idx distance_km ;;
  gasoline_car <- per_trip_shared "gasoline car" idx distance_km car_passangers ;;
  electric_car <- per_trip_shared "electric car" idx distance_km car_passangers ;;
  motorbike <- per_trip "motorbike" idx distance_km ;;
  rail_CH <- per_trip "rail CH" idx distance_km ;;
  Ok [ ("bicycle", bicycle);
       ("coach bus", coach_bus);
       ("gasoline car", gasoline_car);
       ("electric car", electric_car);
       ("motorbike", motorbike);
       ("rail CH", rail_CH) ].

(** What the [Output] widget shows. *)
Record figure : Type :=
  { figsize : Z * Z;
    bar_labels : list string;
    bar_values : list float;
    bar_color : string;
    xlabel : string;
    ylabel : string;
    ylim : Z * Z;
    grid_axis : string }.

Inductive display_item : Type :=
| HTML (markup : string)
| Figure (fig : figure).

Definition Output : Type := list display_item.

Definition table_row (kv : string * float) : string :=
  "<tr><td style='border: 1px solid black;'>" ++ fst kv
    ++ "</td><td style='border: 1px solid black;'>" ++ format_1f (snd kv)
    ++ "</td></tr>".

Definition table_html (data : dict float) : string :=
  fold_left (fun html kv => html ++ table_row kv) data
    ("<table style='border-collapse: collapse'>"
       ++ "<tr><th style='border: 1px solid black;'>Mode </th><th style='border: 1px solid black;'>kg CO2e / passenger</th></tr>")
    ++ "</table>".

Definition bar_chart (data : dict float) : result figure :=
  let labels := keys data in
  values <- mapM (dict_getitem data) labels ;;
  Ok {| figsize := (8, 5);
        bar_labels := labels;
        bar_values := values;
        bar_color := "skyblue";
        xlabel := "Mode";
        ylabel := "kg CO2e / person";
        ylim := (0, 100);
        grid_axis := "y" |}.

(** [recalc]: the outcome of the call and the content of [output] after
    it.  An exception in the dictionary display leaves [output] as it
    was; [clear_output] comes before the first [display]. *)
Definition recalc (model : string) (distance_km car_passangers : Z)
           (output : Output) : result unit * Output :=
  match recalc_data model distance_km car_passangers with
  | Raise e => (Raise e, output)
  | Ok data =>
      let shown := [HTML (table_html data)] in
      match bar_chart data with
      | Raise e => (Raise e, shown)
      | Ok fig => (Ok tt, (shown ++ [Figure fig])%list)
      end
  end.

End Emissions.

Import Emissions.

(** ** Vocabulary of the statements *)

(** The float is not a NaN and carries the sign bit [s]. *)
Definition signed (s : bool) (f : spec_float) : Prop :=
  match f with
  | S754_nan => False
  | S754_zero s' | S754_infinity s' | S754_finite s' _ _ => s' = s
  end.

(** Zero or finite, as opposed to infinite or NaN. *)
Definition is_finite (f : spec_float) : bool :=
  match f with
  | S754_zero _ | S754_finite _ _ _ => true
  | _ => false
  end.

(** The mantissa and the exponent [binary_round_aux] ends with. *)
Definition round_m (prec emax mx ex : Z) (lx : location) : Z :=
  let r1 := shr_fexp prec emax mx ex lx in
  let m1 := round_nearest_even (shr_m (fst r1)) (loc_of_shr_record (fst r1)) in
  shr_m (fst (shr_fexp prec emax m1 (snd r1) loc_Exact)).

Definition round_e (prec emax mx ex : Z) (lx : location) : Z :=
  let r1 := shr_fexp prec emax mx ex lx in
  let m1 := round_nearest_even (shr_m (fst r1)) (loc_of_shr_record (fst r1)) in
  snd (shr_fexp prec emax m1 (snd r1) loc_Exact).

(** The modes [recalc] reports, in the order of its dictionary. *)
Definition output_modes : list string :=
  ["bicycle"; "coach bus"; "gasoline car"; "electric car"; "motorbike"; "rail CH"].

Definition car_modes : list string := ["gasoline car"; "electric car"].

Definition is_car (mode : string) : bool := existsb (String.eqb mode) car_modes.

(** The factor [kgco2e_per_km[mode][idx]] as a value. *)
Definition factor_value (mode : string) (idx : Z) : float :=
  match factor mode idx with
  | Ok f => f
  | Raise _ => S754_nan
  end.

(** One entry of the result, from the operands already converted to float. *)
Definition entry (idx : Z) (fk fp : float) (mode : string) : string * float :=
  let x := float_mul (factor_value mode idx) fk in
  (mode, if is_car mode then float_div x fp else x).

Definition data_of (idx : Z) (fk fp : float) : dict float :=
  map (entry idx fk fp) output_modes.

(** The modes the table must hold, in the order of the first cell. *)
Definition required_modes : list string :=
  ["bicycle"; "coach bus"; "gasoline car"; "electric car"; "motorbike";
   "tgv"; "rail UK"; "rail CH"; "tram"; "flight short"; "flight long"].

(** The formula of the specification: [table[mode][d] * k], further divided
    by [p] for the car modes only. *)
Definition spec_result (model mode : string) (k p : Z) : result float :=
  f <- factor mode (dataset_idx model) ;;
  x <- float_mul_int f k ;;
  if is_car mode then float_truediv_int x p else Ok x.

(** [data[mode]] after [recalc]'s dictionary display. *)
Definition result_at (model : string) (k p : Z) (mode : string) : result float :=
  data <- recalc_data model k p ;;
  dict_getitem data mode.

(** The float a decimal literal denotes: [digits * 10^-decimals], correctly
    rounded (both operands are exactly representable wherever it is used). *)
Definition literal (digits decimals : Z) : float :=
  float_div (Z2float digits) (Z2float (10 ^ decimals)).

(** [x == y] *)
Definition float_eq (x y : float) : bool := SFeqb x y.

(** [-x] *)
Definition float_neg (x : float) : float := SFopp x.

(** ** Facts about rounding in [spec_float] arithmetic

    The lemmas below hold for every precision and exponent range; they are
    instantiated at binary64 afterwards. *)

Lemma digits2_pos_size p : digits2_pos p = Pos.size p.
Proof. induction p; simpl; congruence. Qed.

Lemma Zdigits2_log2 m : 0 < m -> Zdigits2 m = Z.log2 m + 1.
Proof.
  destruct m as [|p|p]; try lia. intros _. simpl Zdigits2.
  rewrite digits2_pos_size. destruct p; simpl; lia.
Qed.

Lemma Zdigits2_nonneg m : 0 <= Zdigits2 m.
Proof. destruct m; simpl; lia. Qed.

Lemma div_pow2_pos m n : 0 < m -> n < Zdigits2 m -> 0 < m / 2 ^ Z.max 0 n.
Proof.
  intros Hm Hn. rewrite Zdigits2_log2 in Hn by assumption.
  pose proof (Z.log2_nonneg m) as Hl.
  apply Z.div_str_pos. split; [apply Z.pow_pos_nonneg; lia|].
  transitivity (2 ^ Z.log2 m).
  - apply Z.pow_le_mono_r; lia.
  - apply Z.log2_spec; assumption.
Qed.

Lemma Zdigits2_div_pow2 m n :
  0 < m -> n < Zdigits2 m -> Zdigits2 (m / 2 ^ Z.max 0 n) = Zdigits2 m - Z.max 0 n.
Proof.
  intros Hm Hn. pose proof (div_pow2_pos m n Hm Hn) as Hq.
  rewrite !Zdigits2_log2 by assumption.
  rewrite Zdigits2_log2 in Hn by assumption.
  rewrite <- Z.shiftr_div_pow2 by lia.
  rewrite Z.log2_shiftr by assumption.
  pose proof (Z.log2_nonneg m). lia.
Qed.

Lemma Zdigits2_succ_le m : 0 < m -> Zdigits2 (m + 1) <= Zdigits2 m + 1.
Proof.
  intros Hm. rewrite !Zdigits2_log2 by lia.
  pose proof (Z.log2_succ_le m). unfold Z.succ in *. lia.
Qed.

Lemma Zdigits2_le m n : 0 < m -> m <= n -> Zdigits2 m <= Zdigits2 n.
Proof.
  intros Hm Hn. rewrite !Zdigits2_log2 by lia.
  pose proof (Z.log2_le_mono m n Hn). lia.
Qed.

Lemma Zpos_iter_xO m p : Zpos (Pos.iter xO m p) = Zpos m * 2 ^ Zpos p.
Proof.
  induction p as [|p IH] using Pos.peano_ind.
  - simpl Pos.iter. change (2 ^ 1) with 2. rewrite (Pos2Z.inj_xO m). lia.
  - rewrite Pos.iter_succ, Pos2Z.inj_succ, Z.pow_succ_r by lia.
    rewrite (Pos2Z.inj_xO (Pos.iter xO m p)), IH. lia.
Qed.

Lemma Zdigits2_bounds m : 0 < m -> 2 ^ (Zdigits2 m - 1) <= m < 2 ^ Zdigits2 m.
Proof.
  intros Hm. rewrite Zdigits2_log2 by assumption.
  replace (Z.log2 m + 1 - 1) with (Z.log2 m) by lia.
  apply (Z.log2_spec m Hm).
Qed.

Lemma Zdigits2_unique m d : 0 < d -> 2 ^ (d - 1) <= m < 2 ^ d -> Zdigits2 m = d.
Proof.
  intros Hd Hm.
  assert (0 < m) by (pose proof (Z.pow_pos_nonneg 2 (d - 1)); lia).
  rewrite Zdigits2_log2 by assumption.
  rewrite (Z.log2_unique m (d - 1)); [lia|lia|].
  replace (Z.succ (d - 1)) with d by lia. assumption.
Qed.

(** *** Shifting and rounding a mantissa *)

Section Rounding.
Variables prec emax : Z.

Lemma shr_1_m mrs : 0 <= shr_m mrs -> shr_m (shr_1 mrs) = shr_m mrs / 2.
Proof.
  destruct mrs as [m r s]; simpl; intros Hm.
  destruct m as [|p|p]; [reflexivity| |lia].
  rewrite <- Z.div2_div.
  destruct p; reflexivity.
Qed.

Lemma iter_shr_1_m n : forall mrs,
    0 <= shr_m mrs -> shr_m (iter_pos shr_1 n mrs) = shr_m mrs / 2 ^ Zpos n.
Proof.
  induction n as [n IH|n IH|]; intros mrs Hm; simpl iter_pos.
  - assert (H1 : 0 <= shr_m (shr_1 mrs)).
    { rewrite shr_1_m by assumption. apply Z.div_pos; lia. }
    assert (H2 : 0 <= shr_m (iter_pos shr_1 n (shr_1 mrs))).
    { rewrite IH by assumption. apply Z.div_pos; [assumption|]. apply Z.pow_pos_nonneg; lia. }
    rewrite IH, IH, shr_1_m by assumption.
    rewrite !Z.div_div by (try apply Z.pow_pos_nonneg; lia).
    f_equal.
    replace (Z.pos n~1) with (Z.succ (Z.pos n + Z.pos n)) by lia.
    rewrite Z.pow_succ_r by lia. rewrite Z.pow_add_r by lia. reflexivity.
  - assert (H2 : 0 <= shr_m (iter_pos shr_1 n mrs)).
    { rewrite IH by assumption. apply Z.div_pos; [assumption|]. apply Z.pow_pos_nonneg; lia. }
    rewrite IH, IH by assumption.
    rewrite !Z.div_div by (try apply Z.pow_pos_nonneg; lia).
    f_equal.
    replace (Z.pos n~0) with (Z.pos n + Z.pos n) by lia.
    rewrite Z.pow_add_r by lia. reflexivity.
  - rewrite shr_1_m by assumption. reflexivity.
Qed.

Lemma shr_m_div mrs e n :
  0 <= shr_m mrs -> shr_m (fst (shr mrs e n)) = shr_m mrs / 2 ^ Z.max 0 n.
Proof.
  intros Hm. destruct n as [|p|p]; simpl.
  - now rewrite Z.div_1_r.
  - now apply iter_shr_1_m.
  - now rewrite Z.div_1_r.
Qed.

Lemma shr_e mrs e n : snd (shr mrs e n) = e + Z.max 0 n.
Proof. destruct n; simpl; lia. Qed.

Lemma shr_record_of_loc_m m l : shr_m (shr_record_of_loc m l) = m.
Proof. destruct l as [|[| |]]; reflexivity. Qed.

Lemma round_nearest_even_ge m l : m <= round_nearest_even m l.
Proof. destruct l as [|[| |]]; simpl; try lia. destruct (Z.even m); lia. Qed.

Lemma shr_fexp_m m e l :
  0 <= m ->
  shr_m (fst (shr_fexp prec emax m e l))
  = m / 2 ^ Z.max 0 (fexp prec emax (Zdigits2 m + e) - e).
Proof.
  intros Hm. unfold shr_fexp.
  rewrite shr_m_div; rewrite shr_record_of_loc_m; auto.
Qed.

Lemma shr_fexp_e m e l :
  snd (shr_fexp prec emax m e l) = e + Z.max 0 (fexp prec emax (Zdigits2 m + e) - e).
Proof. unfold shr_fexp. apply shr_e. Qed.

Lemma binary_round_aux_eq sx mx ex lx :
  binary_round_aux prec emax sx mx ex lx =
  match round_m prec emax mx ex lx with
  | Z0 => S754_zero sx
  | Zpos m =>
      if round_e prec emax mx ex lx <=? emax - prec
      then S754_finite sx m (round_e prec emax mx ex lx) else S754_infinity sx
  | Zneg _ => S754_nan
  end.
Proof.
  unfold binary_round_aux, round_m, round_e.
  destruct (shr_fexp prec emax mx ex lx) as [mrs' e']; simpl.
  destruct (shr_fexp prec emax _ e' loc_Exact) as [mrs'' e'']; reflexivity.
Qed.

Lemma round_m_nonneg mx ex lx : 0 <= mx -> 0 <= round_m prec emax mx ex lx.
Proof.
  intros Hm. unfold round_m.
  set (r1 := shr_fexp prec emax mx ex lx).
  assert (H1 : 0 <= shr_m (fst r1)).
  { unfold r1. rewrite shr_fexp_m by assumption.
    apply Z.div_pos; [assumption|]. apply Z.pow_pos_nonneg; lia. }
  pose proof (round_nearest_even_ge (shr_m (fst r1)) (loc_of_shr_record (fst r1))) as H2.
  rewrite shr_fexp_m by lia.
  apply Z.div_pos; [lia|]. apply Z.pow_pos_nonneg; lia.
Qed.

Lemma binary_round_aux_signed sx mx ex lx :
  0 <= mx -> signed sx (binary_round_aux prec emax sx mx ex lx).
Proof.
  intros Hm. rewrite binary_round_aux_eq.
  pose proof (round_m_nonneg mx ex lx Hm) as H.
  destruct (round_m prec emax mx ex lx); [reflexivity| |lia].
  destruct (_ <=? _); reflexivity.
Qed.
End Rounding.

(** *** Rounding neither reaches zero nor, on small integers, infinity *)

Section RoundingRange.
Variables prec emax : Z.
Hypothesis Hprec : 0 < prec.

Lemma round_nearest_even_le m l : round_nearest_even m l <= m + 1.
Proof. destruct l as [|[| |]]; simpl; try lia. destruct (Z.even m); lia. Qed.

Lemma Zdigits2_pos m : 0 < m -> 0 < Zdigits2 m.
Proof. destruct m; simpl; lia. Qed.

Lemma shift_lt_digits m e :
  0 < m -> emin prec emax <= e ->
  fexp prec emax (Zdigits2 m + e) - e < Zdigits2 m.
Proof. intros Hm He. pose proof (Zdigits2_pos m Hm). unfold fexp. lia. Qed.

Lemma round_m_pos mx ex lx :
  0 < mx -> emin prec emax <= ex -> 0 < round_m prec emax mx ex lx.
Proof.
  intros Hm He. unfold round_m.
  set (r1 := shr_fexp prec emax mx ex lx).
  assert (H1 : 0 < shr_m (fst r1)).
  { unfold r1. rewrite shr_fexp_m by lia.
    apply div_pow2_pos; [assumption|]. now apply shift_lt_digits. }
  assert (He1 : emin prec emax <= snd r1).
  { unfold r1. rewrite shr_fexp_e. lia. }
  pose proof (round_nearest_even_ge (shr_m (fst r1)) (loc_of_shr_record (fst r1))) as H2.
  rewrite shr_fexp_m by lia.
  apply div_pow2_pos; [lia|]. apply shift_lt_digits; [lia|assumption].
Qed.

Lemma round_e_le mx ex lx :
  0 < mx -> emin prec emax <= ex ->
  round_e prec emax mx ex lx <= Z.max ex (Zdigits2 mx + ex + 1 - prec).
Proof.
  intros Hm He. unfold round_e.
  set (r1 := shr_fexp prec emax mx ex lx).
  pose proof (shift_lt_digits mx ex Hm He) as Hn1.
  assert (H1 : 0 < shr_m (fst r1)).
  { unfold r1. rewrite shr_fexp_m by lia. now apply div_pow2_pos. }
  assert (Hd1 : Zdigits2 (shr_m (fst r1)) + snd r1 = Zdigits2 mx + ex).
  { unfold r1. rewrite shr_fexp_m, shr_fexp_e by lia.
    rewrite Zdigits2_div_pow2 by assumption. lia. }
  assert (He1 : snd r1 = Z.max ex (Zdigits2 mx + ex - prec)).
  { unfold r1. rewrite shr_fexp_e. unfold fexp. lia. }
  set (m1 := round_nearest_even (shr_m (fst r1)) (loc_of_shr_record (fst r1))).
  pose proof (round_nearest_even_ge (shr_m (fst r1)) (loc_of_shr_record (fst r1))) as Hge.
  pose proof (round_nearest_even_le (shr_m (fst r1)) (loc_of_shr_record (fst r1))) as Hle.
  fold m1 in Hge, Hle.
  assert (Hdm1 : Zdigits2 m1 <= Zdigits2 (shr_m (fst r1)) + 1).
  { transitivity (Zdigits2 (shr_m (fst r1) + 1)).
    - apply Zdigits2_le; lia.
    - apply Zdigits2_succ_le; assumption. }
  rewrite shr_fexp_e. unfold fexp. lia.
Qed.

Lemma shl_align_spec mx ex ex' :
  snd (shl_align mx ex ex') = Z.min ex ex' /\
  Zdigits2 (Zpos (fst (shl_align mx ex ex'))) + snd (shl_align mx ex ex')
  = Zdigits2 (Zpos mx) + ex.
Proof.
  unfold shl_align. destruct (ex' - ex) as [|d|d] eqn:E; simpl fst; simpl snd.
  - split; lia.
  - split; lia.
  - split; [lia|].
    rewrite !Zdigits2_log2 by lia.
    rewrite Zpos_iter_xO, Z.log2_mul_pow2 by lia. lia.
Qed.

(** Rounding a non-zero integer never gives a zero, and keeps the sign. *)
Lemma binary_round_nonzero sx m :
  emin prec emax <= 0 ->
  let f := binary_round prec emax sx m 0 in
  signed sx f /\ is_zero f = false.
Proof.
  intros Hemin. unfold binary_round.
  pose proof (shl_align_spec m 0 (fexp prec emax (Zpos (digits2_pos m) + 0))) as [He _].
  destruct (shl_align _ _ _) as [mz ez]; simpl in He.
  assert (Hez : emin prec emax <= ez) by (unfold fexp in He; lia).
  rewrite binary_round_aux_eq.
  pose proof (round_m_pos (Zpos mz) ez loc_Exact ltac:(lia) Hez) as Hpos.
  destruct (round_m prec emax (Zpos mz) ez loc_Exact); try lia.
  destruct (_ <=? _); split; reflexivity.
Qed.

(** Integers of fewer than [emax] bits round to a finite float. *)
Lemma binary_round_finite sx m :
  prec <= emax -> emin prec emax <= 0 ->
  Zpos (digits2_pos m) < emax ->
  exists m' e', binary_round prec emax sx m 0 = S754_finite sx m' e'.
Proof.
  intros Hmax Hemin Hd. unfold binary_round.
  pose proof (shl_align_spec m 0 (fexp prec emax (Zpos (digits2_pos m) + 0))) as [He Hdz].
  destruct (shl_align _ _ _) as [mz ez]; simpl fst in Hdz; simpl snd in He, Hdz.
  assert (Hez : emin prec emax <= ez) by (unfold fexp in He; lia).
  rewrite binary_round_aux_eq.
  pose proof (round_m_pos (Zpos mz) ez loc_Exact ltac:(lia) Hez) as Hpos.
  pose proof (round_e_le (Zpos mz) ez loc_Exact ltac:(lia) Hez) as Hle.
  change (Zdigits2 (Zpos m)) with (Zpos (digits2_pos m)) in Hdz.
  destruct (round_m prec emax (Zpos mz) ez loc_Exact) as [|m'|m']; try lia.
  destruct (Z.leb_spec (round_e prec emax (Zpos mz) ez loc_Exact) (emax - prec)).
  - eauto.
  - lia.
Qed.
End RoundingRange.

(** *** Rounding in the normal range *)

Section NormalRounding.
Variables prec emax : Z.
Hypothesis Hprec : 0 < prec.

(** Rounding a mantissa of at least [prec] bits in the normal range: the
    mantissa is first cut to [prec] bits at the exponent [E], then moved up
    by at most one unit. *)
Lemma round_normal q e' lx :
  0 < q -> prec <= Zdigits2 q -> emin prec emax <= Zdigits2 q + e' - prec ->
  let E := Zdigits2 q + e' - prec in
  let m' := q / 2 ^ (E - e') in
  let m'' := round_m prec emax q e' lx in
  let e'' := round_e prec emax q e' lx in
  2 ^ (prec - 1) <= m' < 2 ^ prec /\
  2 ^ (prec - 1) <= m'' < 2 ^ prec /\
  E <= e'' <= E + 1 /\
  m' <= m'' * 2 ^ (e'' - E) <= m' + 1.
Proof.
  intros Hq Hd Hn E m' m'' e''.
  assert (Hfexp : fexp prec emax (Zdigits2 q + e') - e' = E - e')
    by (unfold fexp, E; lia).
  assert (Hmax : Z.max 0 (E - e') = E - e') by (unfold E; lia).
  set (r1 := shr_fexp prec emax q e' lx).
  assert (Hm1 : shr_m (fst r1) = m').
  { unfold r1, m'. rewrite shr_fexp_m by lia. now rewrite Hfexp, Hmax. }
  assert (He1 : snd r1 = E).
  { unfold r1. rewrite shr_fexp_e, Hfexp, Hmax. lia. }
  assert (Hdm' : Zdigits2 m' = prec).
  { unfold m'. rewrite <- Hmax. rewrite Zdigits2_div_pow2 by (unfold E; lia).
    rewrite Hmax. unfold E. lia. }
  assert (Hm'pos : 0 < m').
  { unfold m'. rewrite <- Hmax. apply div_pow2_pos; unfold E; lia. }
  pose proof (Zdigits2_bounds m' Hm'pos) as Hbm'. rewrite Hdm' in Hbm'.
  set (m1 := round_nearest_even (shr_m (fst r1)) (loc_of_shr_record (fst r1))).
  pose proof (round_nearest_even_ge (shr_m (fst r1)) (loc_of_shr_record (fst r1))) as Hge.
  pose proof (round_nearest_even_le (shr_m (fst r1)) (loc_of_shr_record (fst r1))) as Hle.
  fold m1 in Hge, Hle. rewrite Hm1 in Hge, Hle.
  assert (Hm'' : m'' = shr_m (fst (shr_fexp prec emax m1 E loc_Exact))).
  { unfold m'', round_m. fold r1. fold m1. now rewrite He1. }
  assert (He'' : e'' = snd (shr_fexp prec emax m1 E loc_Exact)).
  { unfold e'', round_e. fold r1. fold m1. now rewrite He1. }
  rewrite shr_fexp_m in Hm'' by lia. rewrite shr_fexp_e in He''.
  split; [exact Hbm'|].
  destruct (Z_lt_le_dec m1 (2 ^ prec)) as [Hlt|Hge2].
  - assert (Hd1 : Zdigits2 m1 = prec) by (apply Zdigits2_unique; lia).
    rewrite Hd1 in Hm'', He''.
    assert (Hz : Z.max 0 (fexp prec emax (prec + E) - E) = 0) by (unfold fexp; lia).
    rewrite Hz in Hm'', He''. rewrite Z.pow_0_r, Z.div_1_r in Hm''.
    rewrite Hm'', He''. replace (E + 0 - E) with 0 by lia. rewrite Z.pow_0_r. lia.
  - assert (Em1 : m1 = 2 ^ prec) by lia.
    assert (Hd1 : Zdigits2 m1 = prec + 1).
    { apply Zdigits2_unique; [lia|]. rewrite Em1.
      replace (prec + 1 - 1) with prec by lia.
      rewrite Z.pow_add_r by lia. change (2 ^ 1) with 2. lia. }
    rewrite Hd1 in Hm'', He''.
    assert (Hz : Z.max 0 (fexp prec emax (prec + 1 + E) - E) = 1) by (unfold fexp; lia).
    rewrite Hz in Hm'', He''. rewrite Em1 in Hm''.
    assert (Hhalf : 2 ^ prec / 2 ^ 1 = 2 ^ (prec - 1)).
    { rewrite <- Z.pow_sub_r by lia. reflexivity. }
    rewrite Hhalf in Hm''. rewrite Hm'', He''.
    replace (E + 1 - E) with 1 by lia.
    assert (Hdbl : 2 ^ (prec - 1) * 2 ^ 1 = 2 ^ prec).
    { rewrite <- Z.pow_add_r by lia. f_equal. lia. }
    rewrite Hdbl.
    assert (2 ^ (prec - 1) < 2 ^ prec) by (apply Z.pow_lt_mono_r; lia).
    lia.
Qed.
End NormalRounding.

(** *** Comparison *)

Section Compare.
Variable prec : Z.
Hypothesis Hprec : 0 < prec.

(** On positive floats with full mantissas, [<] is the order of the values. *)
Lemma SFltb_normal (ma mb : positive) (ea eb E : Z) :
  2 ^ (prec - 1) <= Zpos ma < 2 ^ prec ->
  2 ^ (prec - 1) <= Zpos mb < 2 ^ prec ->
  E <= ea -> E <= eb ->
  Zpos ma * 2 ^ (ea - E) < Zpos mb * 2 ^ (eb - E) ->
  SFltb (S754_finite false ma ea) (S754_finite false mb eb) = true.
Proof.
  intros Ha Hb Hea Heb Hlt. unfold SFltb, SFcompare.
  destruct (Z.compare_spec ea eb) as [Heq|Hl|Hg].
  - subst eb. assert (Hp : 0 < 2 ^ (ea - E)) by (apply Z.pow_pos_nonneg; lia).
    assert (Hm : Zpos ma < Zpos mb) by nia.
    rewrite Pos.compare_cont_spec. change (Pos.lt ma mb) in Hm.
    rewrite (proj2 (Pos.compare_lt_iff ma mb) Hm). reflexivity.
  - reflexivity.
  - exfalso.
    assert (H2 : 2 ^ (ea - E) = 2 ^ (eb - E) * 2 ^ (ea - eb)).
    { rewrite <- Z.pow_add_r by lia. f_equal. lia. }
    assert (Hp : 0 < 2 ^ (eb - E)) by (apply Z.pow_pos_nonneg; lia).
    assert (H3 : 2 <= 2 ^ (ea - eb)).
    { change 2 with (2 ^ 1) at 1. apply Z.pow_le_mono_r; lia. }
    assert (H4 : 2 ^ prec = 2 * 2 ^ (prec - 1)).
    { rewrite <- Z.pow_succ_r by lia. f_equal. lia. }
    rewrite H2 in Hlt. nia.
Qed.
End Compare.

(** *** The sign of products and quotients *)

Section Signs.
Variables prec emax : Z.

Lemma SFmul_signed sx sy x y :
  signed sx x -> signed sy y -> is_finite x = true -> is_finite y = true ->
  signed (xorb sx sy) (SFmul prec emax x y).
Proof.
  intros Hx Hy Fx Fy.
  destruct x as [s1|s1| |s1 m1 e1], y as [s2|s2| |s2 m2 e2];
    simpl in *; try discriminate; subst; try reflexivity.
  apply binary_round_aux_signed. lia.
Qed.

Lemma SFdiv_core_binary_nonneg m1 e1 m2 e2 :
  0 <= m1 -> 0 < m2 ->
  0 <= fst (fst (SFdiv_core_binary prec emax m1 e1 m2 e2)).
Proof.
  intros H1 H2. unfold SFdiv_core_binary.
  set (s := _ - _ - _).
  set (m' := match s with Z0 => m1 | Zpos _ => Z.shiftl m1 s | Zneg _ => 0 end).
  assert (Hm' : 0 <= m').
  { unfold m'. destruct s; try lia. apply Z.shiftl_nonneg. assumption. }
  pose proof (Z.div_pos m' m2 Hm' H2) as Hq. unfold Z.div in Hq.
  destruct (Z.div_eucl m' m2) as [q r]. exact Hq.
Qed.

Lemma SFdiv_signed sx sy x my ey :
  signed sx x ->
  signed (xorb sx sy) (SFdiv prec emax x (S754_finite sy my ey)).
Proof.
  intros Hx.
  destruct x as [s1|s1| |s1 m1 e1]; simpl in *; subst; try reflexivity; try contradiction.
  pose proof (SFdiv_core_binary_nonneg (Zpos m1) e1 (Zpos my) ey ltac:(lia) ltac:(lia)) as Hq.
  destruct (SFdiv_core_binary prec emax (Zpos m1) e1 (Zpos my) ey) as [[mz ez] lz].
  apply binary_round_aux_signed. exact Hq.
Qed.


Lemma SFltb_zero_signed x : signed true x -> SFltb (S754_zero false) x = false.
Proof. destruct x as [s|s| |s m e]; simpl; intros H; subst; try reflexivity; contradiction. Qed.
End Signs.

(** *** Division by the float of an integer *)

Section Division.
Variables prec emax : Z.
Hypothesis Hprec : 0 < prec.

Lemma SFdiv_core_binary_eq m1 e1 m2 e2 :
  0 < m1 -> 0 < m2 ->
  let e' := Z.min (fexp prec emax (Zdigits2 m1 + e1 - (Zdigits2 m2 + e2))) (e1 - e2) in
  let n := m1 * 2 ^ (e1 - e2 - e') in
  SFdiv_core_binary prec emax m1 e1 m2 e2 = (n / m2, e', new_location m2 (n mod m2)).
Proof.
  intros H1 H2 e' n. unfold SFdiv_core_binary. fold e'.
  assert (Hs : 0 <= e1 - e2 - e') by (unfold e'; lia).
  assert (Hn : match e1 - e2 - e' with
               | Z0 => m1
               | Zpos _ => Z.shiftl m1 (e1 - e2 - e')
               | Zneg _ => 0
               end = n).
  { unfold n. destruct (e1 - e2 - e') as [|s|s] eqn:Es.
    - rewrite Z.pow_0_r. lia.
    - apply Z.shiftl_mul_pow2. lia.
    - lia. }
  rewrite Hn. unfold Z.div, Z.modulo.
  destruct (Z.div_eucl n m2) as [q r]. reflexivity.
Qed.

(** Dividing a positive float with a full mantissa by the float of a
    positive integer [p], in the normal range: the quotient mantissa is the
    integer quotient of [mx * 2^(ex - E)] by [p], cut to [prec] bits, moved
    up by at most one unit. *)
Lemma SFdiv_by_integer (mx my : positive) (ex ey p : Z) :
  2 ^ (prec - 1) <= Zpos mx < 2 ^ prec ->
  2 ^ (prec - 1) <= Zpos my < 2 ^ prec ->
  1 <= p -> ey <= 0 -> Zpos my = p * 2 ^ (- ey) ->
  emin prec emax <= ex - ey - prec ->
  ex + 1 <= emax - prec ->
  exists (m'' : positive) (e'' E m' : Z),
    SFdiv prec emax (S754_finite false mx ex) (S754_finite false my ey)
    = S754_finite false m'' e'' /\
    2 ^ (prec - 1) <= Zpos m'' < 2 ^ prec /\
    2 ^ (prec - 1) <= m' < 2 ^ prec /\
    E <= ex /\ E <= e'' /\
    p * m' <= Zpos mx * 2 ^ (ex - E) < p * (m' + 1) /\
    m' <= Zpos m'' * 2 ^ (e'' - E) <= m' + 1.
Proof.
  intros Hmx Hmy Hp Hey Hy Hnorm Hov.
  assert (Hdx : Zdigits2 (Zpos mx) = prec) by (apply Zdigits2_unique; lia).
  assert (Hdy : Zdigits2 (Zpos my) = prec) by (apply Zdigits2_unique; lia).
  assert (Hpp : 0 < 2 ^ prec) by (apply Z.pow_pos_nonneg; lia).
  assert (Hpp1 : 0 < 2 ^ (prec - 1)) by (apply Z.pow_pos_nonneg; lia).
  assert (Hdbl : 2 ^ prec = 2 * 2 ^ (prec - 1)).
  { rewrite <- Z.pow_succ_r by lia. f_equal. lia. }
  (* the integer is below 2^prec, so ey > - prec *)
  assert (Hey' : 1 - prec <= ey).
  { destruct (Z_lt_le_dec ey (1 - prec)) as [Hlt|]; [|assumption]. exfalso.
    assert (2 ^ prec <= 2 ^ (- ey)) by (apply Z.pow_le_mono_r; lia).
    nia. }
  cbn [SFdiv].
  pose proof (SFdiv_core_binary_eq (Zpos mx) ex (Zpos my) ey ltac:(lia) ltac:(lia)) as Hcore.
  cbv zeta in Hcore. rewrite Hdx, Hdy in Hcore.
  assert (He' : Z.min (fexp prec emax (prec + ex - (prec + ey))) (ex - ey) = ex - ey - prec)
    by (unfold fexp; lia).
  rewrite He' in Hcore.
  replace (ex - ey - (ex - ey - prec)) with prec in Hcore by lia.
  rewrite Hcore. clear Hcore He'.
  set (q := Zpos mx * 2 ^ prec / Zpos my).
  set (e' := ex - ey - prec).
  set (lz := new_location _ _).
  (* the quotient has prec or prec + 1 bits *)
  assert (Hq1 : 2 ^ (prec - 1) <= q).
  { unfold q. apply Z.div_le_lower_bound; [lia|]. nia. }
  assert (Hq2 : q < 2 ^ (prec + 1)).
  { unfold q. apply Z.div_lt_upper_bound; [lia|].
    rewrite Z.pow_add_r by lia. change (2 ^ 1) with 2. nia. }
  assert (Hdq : prec <= Zdigits2 q <= prec + 1).
  { assert (0 < q) by lia.
    pose proof (Zdigits2_bounds q ltac:(lia)) as [Hb1 Hb2].
    split.
    - destruct (Z_lt_le_dec (Zdigits2 q) prec) as [Hlt|]; [|assumption]. exfalso.
      assert (2 ^ Zdigits2 q <= 2 ^ (prec - 1)).
      { apply Z.pow_le_mono_r; lia. }
      lia.
    - destruct (Z_lt_le_dec (prec + 1) (Zdigits2 q)) as [Hlt|]; [|lia]. exfalso.
      assert (2 ^ (prec + 1) <= 2 ^ (Zdigits2 q - 1)).
      { apply Z.pow_le_mono_r; lia. }
      lia. }
  destruct (round_normal prec emax Hprec q e' lz ltac:(lia) ltac:(lia) ltac:(unfold e'; lia))
    as (Hm' & Hm'' & He'' & Hval).
  set (E := Zdigits2 q + e' - prec) in *.
  set (m' := q / 2 ^ (E - e')) in *.
  rewrite binary_round_aux_eq.
  destruct (round_m prec emax q e' lz) as [|m''|m''] eqn:Erm; try lia.
  assert (Hfin : (round_e prec emax q e' lz <=? emax - prec) = true).
  { apply Z.leb_le. unfold E, e' in *. lia. }
  rewrite Hfin.
  exists m'', (round_e prec emax q e' lz), E, m'.
  split; [reflexivity|]. split; [exact Hm''|]. split; [exact Hm'|].
  split; [unfold E, e'; lia|]. split; [lia|]. split; [|exact Hval].
  (* m' is the quotient of mx * 2^(ex - E) by p *)
  set (t := E - e' - ey).
  assert (Ht : 0 <= t) by (unfold t, E; lia).
  assert (Hden : Zpos my * 2 ^ (E - e') = p * 2 ^ t).
  { rewrite Hy, <- Z.mul_assoc, <- Z.pow_add_r by (unfold E; lia).
    f_equal. f_equal. unfold t. lia. }
  assert (Hnum : Zpos mx * 2 ^ prec = Zpos mx * 2 ^ (ex - E) * 2 ^ t).
  { rewrite <- Z.mul_assoc, <- Z.pow_add_r by (unfold E, e'; lia).
    f_equal. f_equal. unfold t, E, e'. lia. }
  assert (Em' : m' = Zpos mx * 2 ^ (ex - E) / p).
  { unfold m', q. rewrite Z.div_div by (try apply Z.pow_pos_nonneg; unfold E; lia).
    rewrite Hden, Hnum.
    apply Z.div_mul_cancel_r; [lia|]. apply Z.pow_nonzero; lia. }
  rewrite Em'. split.
  - apply Z.mul_div_le. lia.
  - rewrite Z.mul_add_distr_l, Z.mul_1_r.
    pose proof (Z.mod_pos_bound (Zpos mx * 2 ^ (ex - E)) p ltac:(lia)) as Hmod.
    pose proof (Z.div_mod (Zpos mx * 2 ^ (ex - E)) p ltac:(lia)) as Hdm.
    lia.
Qed.
End Division.

(** Two facts of integer arithmetic behind the comparison of quotients. *)

Lemma quotient_exponent_order (Xa ma mb p1 p2 P T : Z) :
  0 < p1 -> p1 < p2 -> 0 < P -> P <= ma -> mb + 1 <= 2 * P -> 2 <= T ->
  p2 * ma <= Xa -> Xa * T < p1 * (mb + 1) -> False.
Proof.
  intros Hp1 Hp12 HP Hma Hmb HT Ha Hb.
  assert (H1 : p2 * P <= p2 * ma) by (apply Z.mul_le_mono_nonneg_l; lia).
  assert (H2 : p1 * (mb + 1) <= p1 * (2 * P)) by (apply Z.mul_le_mono_nonneg_l; lia).
  assert (H3 : p1 * P < p2 * P) by (apply Z.mul_lt_mono_pos_r; lia).
  assert (H4 : Xa * 2 <= Xa * T) by (apply Z.mul_le_mono_nonneg_l; lia).
  lia.
Qed.

Lemma quotient_gap (Xb ma mb p1 p2 P W : Z) :
  1 <= p1 -> p1 < p2 -> 2 * p2 <= P -> P <= mb -> 1 <= W -> 0 <= ma ->
  p2 * ma <= Xb * W -> Xb < p1 * (mb + 1) -> ma + 1 < mb * W.
Proof.
  intros Hp1 Hp12 Hp2 Hmb HW Hma Ha Hb.
  destruct (Z_lt_le_dec (ma + 1) (mb * W)) as [|Hge]; [assumption|]. exfalso.
  (* p2 * (mb * W - 1) <= p2 * ma <= Xb * W < p1 * (mb + 1) * W <= (p2 - 1) * (mb + 1) * W *)
  assert (H1 : p2 * (mb * W - 1) <= p2 * ma) by (apply Z.mul_le_mono_nonneg_l; lia).
  assert (H2 : Xb * W < p1 * (mb + 1) * W) by (apply Z.mul_lt_mono_pos_r; lia).
  assert (H3 : p1 * ((mb + 1) * W) <= (p2 - 1) * ((mb + 1) * W)).
  { apply Z.mul_le_mono_nonneg_r; [|lia]. apply Z.mul_nonneg_nonneg; lia. }
  (* hence (mb + 1) * W < p2 * W + p2 <= 2 * p2 * W <= P * W <= mb * W *)
  assert (H4 : p2 * 1 <= p2 * W) by (apply Z.mul_le_mono_nonneg_l; lia).
  assert (H5 : 2 * p2 * W <= P * W) by (apply Z.mul_le_mono_nonneg_r; lia).
  assert (H6 : P * W <= mb * W) by (apply Z.mul_le_mono_nonneg_r; lia).
  assert (E1 : p2 * (mb * W - 1) = p2 * (mb * W) - p2) by ring.
  assert (E2 : (p2 - 1) * ((mb + 1) * W) = p2 * (mb * W) + p2 * W - mb * W - W) by ring.
  assert (E3 : p1 * (mb + 1) * W = p1 * ((mb + 1) * W)) by ring.
  lia.
Qed.

Section Strict.
Variables prec emax : Z.
Hypothesis Hprec : 1 < prec.

(** Dividing by a larger integer gives a strictly smaller float, as long as
    the integers do not exceed 2^(prec - 2): the two exact quotients are then
    more than two units in the last place apart. *)
Lemma SFdiv_integer_strict (mx my1 my2 : positive) (ex ey1 ey2 p1 p2 : Z) :
  2 ^ (prec - 1) <= Zpos mx < 2 ^ prec ->
  2 ^ (prec - 1) <= Zpos my1 < 2 ^ prec ->
  2 ^ (prec - 1) <= Zpos my2 < 2 ^ prec ->
  ey1 <= 0 -> Zpos my1 = p1 * 2 ^ (- ey1) ->
  ey2 <= 0 -> Zpos my2 = p2 * 2 ^ (- ey2) ->
  1 <= p1 -> p1 < p2 -> p2 <= 2 ^ (prec - 2) ->
  emin prec emax <= ex - prec ->
  ex + 1 <= emax - prec ->
  SFltb (SFdiv prec emax (S754_finite false mx ex) (S754_finite false my2 ey2))
        (SFdiv prec emax (S754_finite false mx ex) (S754_finite false my1 ey1)) = true.
Proof.
  intros Hmx Hm1 Hm2 He1 Hy1 He2 Hy2 Hp1 Hp12 Hp2 Hnorm Hov.
  assert (Hprec0 : 0 < prec) by lia.
  destruct (SFdiv_by_integer prec emax Hprec0 mx my2 ex ey2 p2)
    as (ma & ea & Ea & m'a & -> & Hma & Hm'a & HEa & HEa' & Hqa & Hva); try assumption; try lia.
  destruct (SFdiv_by_integer prec emax Hprec0 mx my1 ex ey1 p1)
    as (mb & eb & Eb & m'b & -> & Hmb & Hm'b & HEb & HEb' & Hqb & Hvb); try assumption; try lia.
  assert (Hdbl : 2 ^ prec = 2 * 2 ^ (prec - 1)).
  { rewrite <- Z.pow_succ_r by lia. f_equal. lia. }
  assert (Hdbl' : 2 ^ (prec - 1) = 2 * 2 ^ (prec - 2)).
  { rewrite <- Z.pow_succ_r by lia. f_equal. lia. }
  assert (Hpp : 0 < 2 ^ (prec - 2)) by (apply Z.pow_pos_nonneg; lia).
  set (Xa := Zpos mx * 2 ^ (ex - Ea)) in *.
  set (Xb := Zpos mx * 2 ^ (ex - Eb)) in *.
  assert (HXb : 0 < Xb).
  { unfold Xb. apply Z.mul_pos_pos; [lia|]. apply Z.pow_pos_nonneg; lia. }
  assert (HXa : 0 < Xa).
  { unfold Xa. apply Z.mul_pos_pos; [lia|]. apply Z.pow_pos_nonneg; lia. }
  (* the exponent of the smaller quotient is not the larger one *)
  assert (Hd : Ea <= Eb).
  { destruct (Z_le_gt_dec Ea Eb) as [|Hgt]; [assumption|]. exfalso.
    assert (HX : Xb = Xa * 2 ^ (Ea - Eb)).
    { unfold Xa, Xb. rewrite <- Z.mul_assoc, <- Z.pow_add_r by lia.
      f_equal. f_equal. lia. }
    assert (H2 : 2 <= 2 ^ (Ea - Eb)).
    { change 2 with (2 ^ 1) at 1. apply Z.pow_le_mono_r; lia. }
    apply (quotient_exponent_order Xa m'a m'b p1 p2 (2 ^ (prec - 1)) (2 ^ (Ea - Eb)));
      try lia. }
  set (W := 2 ^ (Eb - Ea)).
  assert (HW : 1 <= W).
  { unfold W. change 1 with (2 ^ 0). apply Z.pow_le_mono_r; lia. }
  assert (HX : Xa = Xb * W).
  { unfold Xa, Xb, W. rewrite <- Z.mul_assoc, <- Z.pow_add_r by lia.
    f_equal. f_equal. lia. }
  assert (Hgap : m'a + 1 < m'b * W).
  { apply (quotient_gap Xb m'a m'b p1 p2 (2 ^ (prec - 1)) W); lia. }
  apply (SFltb_normal prec Hprec0 ma mb ea eb Ea); try assumption; try lia.
  assert (Hvb' : Zpos mb * 2 ^ (eb - Ea) = Zpos mb * 2 ^ (eb - Eb) * W).
  { unfold W. rewrite <- Z.mul_assoc, <- Z.pow_add_r by lia. f_equal. f_equal. lia. }
  rewrite Hvb'.
  assert (Hvb'' : m'b * W <= Zpos mb * 2 ^ (eb - Eb) * W)
    by (apply Z.mul_le_mono_nonneg_r; lia).
  lia.
Qed.
End Strict.

(** *** Conversions and products with full mantissas *)

Section Exact.
Variables prec emax : Z.
Hypothesis Hprec : 0 < prec.

Lemma round_exact q e :
  0 < q -> Zdigits2 q = prec -> emin prec emax <= e ->
  round_m prec emax q e loc_Exact = q /\ round_e prec emax q e loc_Exact = e.
Proof.
  intros Hq Hd He.
  assert (Hz : fexp prec emax (prec + e) - e = 0) by (unfold fexp; lia).
  unfold round_m, round_e, shr_fexp. rewrite Hd, Hz.
  cbn [shr fst snd shr_record_of_loc shr_m loc_of_shr_record round_nearest_even].
  rewrite Hd, Hz. split; reflexivity.
Qed.

(** An integer of at most [prec] bits converts exactly: its float has the
    mantissa shifted up to [prec] bits. *)
Lemma binary_round_exact sx m :
  Zpos (digits2_pos m) <= prec -> prec <= emax -> emin prec emax <= 1 - prec ->
  exists my,
    binary_round prec emax sx m 0 = S754_finite sx my (Zpos (digits2_pos m) - prec) /\
    Zpos my = Zpos m * 2 ^ (prec - Zpos (digits2_pos m)) /\
    2 ^ (prec - 1) <= Zpos my < 2 ^ prec.
Proof.
  intros Hd Hmax Hemin. set (d := Zpos (digits2_pos m)) in *.
  assert (Hfexp : fexp prec emax (d + 0) = d - prec) by (unfold fexp, d; lia).
  pose proof (Zdigits2_bounds (Zpos m) ltac:(lia)) as Hb.
  change (Zdigits2 (Zpos m)) with d in Hb.
  unfold binary_round. fold d. rewrite Hfexp.
  assert (Hsh : exists my, shl_align m 0 (d - prec) = (my, d - prec) /\
                           Zpos my = Zpos m * 2 ^ (prec - d)).
  { unfold shl_align. destruct (d - prec - 0) as [|s|s] eqn:Es.
    - exists m. replace (d - prec) with 0 by lia. replace (prec - d) with 0 by lia.
      rewrite Z.pow_0_r. split; [reflexivity|lia].
    - lia.
    - exists (Pos.iter xO m s). split; [reflexivity|].
      rewrite Zpos_iter_xO. f_equal. f_equal. lia. }
  destruct Hsh as (my & -> & Hmy).
  assert (Hnorm : 2 ^ (prec - 1) <= Zpos my < 2 ^ prec).
  { rewrite Hmy.
    assert (E1 : 2 ^ (prec - 1) = 2 ^ (d - 1) * 2 ^ (prec - d)).
    { rewrite <- Z.pow_add_r by (unfold d; lia). f_equal. lia. }
    assert (E2 : 2 ^ prec = 2 ^ d * 2 ^ (prec - d)).
    { rewrite <- Z.pow_add_r by (unfold d; lia). f_equal. lia. }
    assert (Hp : 0 < 2 ^ (prec - d)) by (apply Z.pow_pos_nonneg; lia).
    rewrite E1, E2. split.
    - apply Z.mul_le_mono_nonneg_r; lia.
    - apply Z.mul_lt_mono_pos_r; lia. }
  exists my. split; [|split; assumption].
  rewrite binary_round_aux_eq.
  destruct (round_exact (Zpos my) (d - prec)) as [-> ->]; try lia.
  - apply Zdigits2_unique; lia.
  - assert (Hle : (d - prec <=? emax - prec) = true) by (apply Z.leb_le; lia).
    now rewrite Hle.
Qed.

(** Any integer of fewer than [emax] bits converts to a float with a full
    mantissa. *)
Lemma binary_round_normal sx m :
  Zpos (digits2_pos m) < emax -> prec <= emax -> emin prec emax <= 1 - prec ->
  exists mk ek,
    binary_round prec emax sx m 0 = S754_finite sx mk ek /\
    2 ^ (prec - 1) <= Zpos mk < 2 ^ prec /\
    Zpos (digits2_pos m) - prec <= ek <= Zpos (digits2_pos m) - prec + 1.
Proof.
  intros Hd Hmax Hemin. set (d := Zpos (digits2_pos m)) in *.
  assert (Hd1 : 1 <= d) by (unfold d; lia).
  unfold binary_round. fold d.
  pose proof (shl_align_spec m 0 (fexp prec emax (d + 0))) as [He Hdz].
  destruct (shl_align m 0 (fexp prec emax (d + 0))) as [mz ez].
  simpl fst in Hdz; simpl snd in He, Hdz.
  change (Zdigits2 (Zpos m)) with d in Hdz.
  assert (Hfexp : fexp prec emax (d + 0) = d - prec) by (unfold fexp; lia).
  rewrite Hfexp in He.
  destruct (round_normal prec emax Hprec (Zpos mz) ez loc_Exact)
    as (_ & Hm'' & He'' & _); try lia.
  rewrite binary_round_aux_eq.
  destruct (round_m prec emax (Zpos mz) ez loc_Exact) as [|mk|mk]; try lia.
  assert (Hle : (round_e prec emax (Zpos mz) ez loc_Exact <=? emax - prec) = true)
    by (apply Z.leb_le; lia).
  rewrite Hle. exists mk, (round_e prec emax (Zpos mz) ez loc_Exact).
  split; [reflexivity|]. split; [assumption|]. lia.
Qed.

(** The product of two positive floats with full mantissas, in the normal
    range, has a full mantissa. *)
Lemma SFmul_normal (mf mk : positive) (ef ek : Z) :
  2 ^ (prec - 1) <= Zpos mf < 2 ^ prec ->
  2 ^ (prec - 1) <= Zpos mk < 2 ^ prec ->
  emin prec emax <= prec - 1 + ef + ek ->
  prec + 1 + ef + ek <= emax - prec ->
  exists mx ex,
    SFmul prec emax (S754_finite false mf ef) (S754_finite false mk ek)
    = S754_finite false mx ex /\
    2 ^ (prec - 1) <= Zpos mx < 2 ^ prec /\
    prec - 1 + ef + ek <= ex <= prec + 1 + ef + ek.
Proof.
  intros Hf Hk Hn Hov. cbn [SFmul xorb].
  set (q := Zpos (mf * mk)).
  assert (Eq : q = Zpos mf * Zpos mk) by reflexivity.
  assert (Hpp1 : 0 < 2 ^ (prec - 1)) by (apply Z.pow_pos_nonneg; lia).
  assert (Hlo : 2 ^ (prec - 1) * 2 ^ (prec - 1) <= q).
  { rewrite Eq. apply Z.mul_le_mono_nonneg; lia. }
  assert (Hhi : q < 2 ^ prec * 2 ^ prec).
  { rewrite Eq. apply Z.mul_lt_mono_nonneg; lia. }
  rewrite <- Z.pow_add_r in Hlo, Hhi by lia.
  assert (Hdq : 2 * prec - 1 <= Zdigits2 q <= 2 * prec).
  { pose proof (Zdigits2_bounds q ltac:(lia)) as [Hb1 Hb2]. split.
    - destruct (Z_lt_le_dec (Zdigits2 q) (2 * prec - 1)) as [Hlt|]; [|assumption]. exfalso.
      assert (2 ^ Zdigits2 q <= 2 ^ (prec - 1 + (prec - 1))).
      { apply Z.pow_le_mono_r; [lia|]. lia. }
      lia.
    - destruct (Z_lt_le_dec (2 * prec) (Zdigits2 q)) as [Hlt|]; [|lia]. exfalso.
      assert (2 ^ (prec + prec) <= 2 ^ (Zdigits2 q - 1)).
      { apply Z.pow_le_mono_r; lia. }
      lia. }
  destruct (round_normal prec emax Hprec q (ef + ek) loc_Exact)
    as (_ & Hm'' & He'' & _); try lia.
  rewrite binary_round_aux_eq.
  destruct (round_m prec emax q (ef + ek) loc_Exact) as [|mx|mx]; try lia.
  assert (Hle : (round_e prec emax q (ef + ek) loc_Exact <=? emax - prec) = true)
    by (apply Z.leb_le; lia).
  rewrite Hle. exists mx, (round_e prec emax q (ef + ek) loc_Exact).
  split; [reflexivity|]. split; [assumption|]. lia.
Qed.
End Exact.

(** *** Rounding beyond the range *)

Section Overflow.
Variables prec emax : Z.
Hypothesis Hprec : 0 < prec.

(** An integer of more than [emax] bits rounds to an infinity. *)
Lemma binary_round_overflow sx m :
  prec <= emax -> emin prec emax <= 0 ->
  emax < Zpos (digits2_pos m) ->
  binary_round prec emax sx m 0 = S754_infinity sx.
Proof.
  intros Hmax Hemin Hd. unfold binary_round.
  pose proof (shl_align_spec m 0 (fexp prec emax (Zpos (digits2_pos m) + 0))) as [He Hdz].
  destruct (shl_align _ _ _) as [mz ez]; simpl fst in Hdz; simpl snd in He, Hdz.
  change (Zdigits2 (Zpos m)) with (Zpos (digits2_pos m)) in Hdz.
  assert (Hez : ez = 0) by (unfold fexp in He; lia).
  clear He. subst ez.
  destruct (round_normal prec emax Hprec (Zpos mz) 0 loc_Exact)
    as (_ & Hm'' & He'' & _); try lia.
  rewrite binary_round_aux_eq.
  destruct (round_m prec emax (Zpos mz) 0 loc_Exact) as [|m''|m'']; try lia.
  assert (Hle : (round_e prec emax (Zpos mz) 0 loc_Exact <=? emax - prec) = false)
    by (apply Z.leb_gt; lia).
  now rewrite Hle.
Qed.
End Overflow.

(** ** Python floats: conversions and signs *)

Lemma emin_binary64 : emin prec emax = -1074.
Proof. reflexivity. Qed.

Lemma Z2float_0 : Z2float 0 = S754_zero false.
Proof. reflexivity. Qed.

Lemma Z2float_nonzero z :
  z <> 0 -> signed (z <? 0) (Z2float z) /\ is_zero (Z2float z) = false.
Proof.
  intros Hz. destruct z as [|m|m]; [congruence| |];
    apply (binary_round_nonzero prec emax); rewrite ?emin_binary64; unfold prec; lia.
Qed.

Lemma Z2float_finite z :
  Z.abs z < 2 ^ 1023 -> z <> 0 ->
  exists m e, Z2float z = S754_finite (z <? 0) m e.
Proof.
  intros Hb Hz.
  assert (Hd : forall m, Zpos m < 2 ^ 1023 -> Zpos (digits2_pos m) < emax).
  { intros m Hm. change (Zpos (digits2_pos m)) with (Zdigits2 (Zpos m)).
    rewrite Zdigits2_log2 by lia.
    apply Z.log2_lt_pow2 in Hm; [|lia]. unfold emax. lia. }
  destruct z as [|m|m]; [congruence| |];
    apply (binary_round_finite prec emax); rewrite ?emin_binary64;
    unfold prec, emax; try lia; apply Hd; lia.
Qed.

(** [float(z)] succeeds on every integer of magnitude below 2^1023. *)
Lemma float_of_int_ok z :
  Z.abs z < 2 ^ 1023 ->
  exists f, float_of_int z = Ok f /\ is_finite f = true /\
            signed (z <? 0) f /\ is_zero f = (z =? 0).
Proof.
  intros Hb. destruct (Z.eq_dec z 0) as [->|Hz].
  - exists (S754_zero false). repeat split.
  - destruct (Z2float_finite z Hb Hz) as (m & e & E).
    exists (S754_finite (z <? 0) m e). unfold float_of_int. rewrite E.
    repeat split. simpl. symmetry. now apply Z.eqb_neq.
Qed.

(** Whatever [float(z)] returns is finite, has the sign of [z], and is
    zero only for [z = 0]. *)
Lemma float_of_int_inv z f :
  float_of_int z = Ok f ->
  f = Z2float z /\ is_finite f = true /\ signed (z <? 0) f /\ is_zero f = (z =? 0).
Proof.
  unfold float_of_int. intros H.
  destruct (Z.eq_dec z 0) as [->|Hz].
  - inversion H. repeat split.
  - destruct (Z2float_nonzero z Hz) as [Hs Hnz].
    apply Z.eqb_neq in Hz. rewrite Hz.
    destruct (Z2float z) as [s|s| |s m e]; inversion H; subst;
      simpl in *; try discriminate; try contradiction; repeat split; assumption.
Qed.

Lemma float_mul_signed sx sy x y :
  signed sx x -> signed sy y -> is_finite x = true -> is_finite y = true ->
  signed (xorb sx sy) (float_mul x y).
Proof. apply SFmul_signed. Qed.

Lemma float_div_signed sx sy x y :
  signed sx x -> signed sy y -> is_finite y = true -> is_zero y = false ->
  signed (xorb sx sy) (float_div x y).
Proof.
  intros Hx Hy Fy Zy. destruct y as [s|s| |s m e]; simpl in *; try discriminate.
  subst. now apply SFdiv_signed.
Qed.


(** Multiplying [+0.0] by a finite non-negative float gives [+0.0]. *)
Lemma float_mul_zero_l y :
  is_finite y = true -> signed false y ->
  float_mul (S754_zero false) y = S754_zero false.
Proof. destruct y as [s|s| |s m e]; simpl; intros F H; subst; try discriminate; reflexivity. Qed.

(** ** The structure of [recalc_data] *)

Lemma kgco2e_per_km_bound : kgco2e_per_km_cell = Ok kgco2e_per_km.
Proof. reflexivity. Qed.

Lemma dataset_idx_cases model :
(model = "OWID" /\ dataset_idx model = 0) \/ (model <> "OWID" /\ dataset_idx model = 1).
Proof.
unfold dataset_idx. destruct (String.eqb_spec model "OWID"); [left|right]; auto.
Qed.

Lemma factor_ok mode idx :
In mode output_modes -> idx = 0 \/ idx = 1 ->
factor mode idx = Ok (factor_value mode idx).
Proof.
intros Hm Hi. unfold output_modes in Hm. simpl in Hm.
repeat (destruct Hm as [<-|Hm]; [destruct Hi as [->| ->]; vm_compute; reflexivity|]).
contradiction.
Qed.

Lemma factor_value_nonneg mode idx :
In mode output_modes -> idx = 0 \/ idx = 1 ->
is_finite (factor_value mode idx) = true /\ signed false (factor_value mode idx).
Proof.
intros Hm Hi. unfold output_modes in Hm. simpl in Hm.
repeat (destruct Hm as [<-|Hm]; [destruct Hi as [->| ->]; vm_compute; split; reflexivity|]).
contradiction.
Qed.

Lemma recalc_data_unfold model k p :
recalc_data model k p =
(fk <- float_of_int k ;;
 fp <- float_of_int p ;;
 if is_zero fp then Raise ZeroDivisionError
 else Ok (data_of (dataset_idx model) fk fp)).
Proof.
unfold recalc_data, per_trip_shared, per_trip.
destruct (dataset_idx_cases model) as [[_ ->]|[_ ->]];
  rewrite !factor_ok by (simpl; tauto);
  unfold float_truediv_int, float_mul_int;
  destruct (float_of_int k) as [fk|e]; cbn [bind]; try reflexivity;
  destruct (float_of_int p) as [fp|e]; cbn [bind]; try reflexivity;
  destruct (is_zero fp); reflexivity.
Qed.

(** ** The dictionary [recalc] builds *)

Lemma data_of_eq idx fk fp :
  data_of idx fk fp =
  [ ("bicycle", float_mul (factor_value "bicycle" idx) fk);
    ("coach bus", float_mul (factor_value "coach bus" idx) fk);
    ("gasoline car", float_div (float_mul (factor_value "gasoline car" idx) fk) fp);
    ("electric car", float_div (float_mul (factor_value "electric car" idx) fk) fp);
    ("motorbike", float_mul (factor_value "motorbike" idx) fk);
    ("rail CH", float_mul (factor_value "rail CH" idx) fk) ].
Proof. reflexivity. Qed.

Lemma keys_data_of idx fk fp : keys (data_of idx fk fp) = output_modes.
Proof. reflexivity. Qed.

Lemma dict_getitem_data_of idx fk fp mode :
  In mode output_modes ->
  dict_getitem (data_of idx fk fp) mode = Ok (snd (entry idx fk fp mode)).
Proof.
  intros Hm. rewrite data_of_eq. unfold output_modes in Hm. simpl in Hm.
  repeat (destruct Hm as [<-|Hm]; [reflexivity|]). contradiction.
Qed.

Lemma dict_getitem_in {V : Type} (d : dict V) key :
  (exists v, dict_getitem d key = Ok v) <-> In key (keys d).
Proof.
  induction d as [|[k v] d IH]; simpl.
  - split; [intros [v H]; discriminate|contradiction].
  - destruct (String.eqb_spec key k) as [->|Hne].
    + split; eauto.
    + rewrite IH. split; [auto|]. intros [H|H]; [congruence|assumption].
Qed.

Lemma recalc_data_inv model k p data :
  recalc_data model k p = Ok data ->
  exists fk fp, float_of_int k = Ok fk /\ float_of_int p = Ok fp /\
                is_zero fp = false /\ data = data_of (dataset_idx model) fk fp.
Proof.
  rewrite recalc_data_unfold.
  destruct (float_of_int k) as [fk|e]; cbn [bind]; [|discriminate].
  destruct (float_of_int p) as [fp|e]; cbn [bind]; [|discriminate].
  destruct (is_zero fp) eqn:Z; [discriminate|].
  intros H. inversion H. eauto 6.
Qed.

(** [recalc] returns its dictionary whenever both integers are below 2^1023
    in magnitude and the occupancy is not 0. *)
Lemma recalc_data_returns model k p :
  Z.abs k < 2 ^ 1023 -> Z.abs p < 2 ^ 1023 -> p <> 0 ->
  exists fk fp, float_of_int k = Ok fk /\ float_of_int p = Ok fp /\
                is_zero fp = false /\
                recalc_data model k p = Ok (data_of (dataset_idx model) fk fp).
Proof.
  intros Hk Hp Hp0.
  destruct (float_of_int_ok k Hk) as (fk & Ek & _).
  destruct (float_of_int_ok p Hp) as (fp & Ep & _ & _ & Zp).
  apply Z.eqb_neq in Hp0. rewrite Hp0 in Zp.
  exists fk, fp. rewrite recalc_data_unfold, Ek, Ep. cbn [bind]. rewrite Zp. auto.
Qed.

Lemma bar_chart_data_of idx fk fp :
  bar_chart (data_of idx fk fp) =
  Ok {| figsize := (8, 5);
        bar_labels := output_modes;
        bar_values := map snd (data_of idx fk fp);
        bar_color := "skyblue";
        xlabel := "Mode";
        ylabel := "kg CO2e / person";
        ylim := (0, 100);
        grid_axis := "y" |}.
Proof. rewrite data_of_eq. reflexivity. Qed.

(** What a successful call leaves in [output]. *)
Lemma recalc_renders model k p data out :
  recalc_data model k p = Ok data ->
  exists fig, bar_chart data = Ok fig /\ bar_labels fig = keys data /\
              bar_values fig = map snd data /\
              recalc model k p out = (Ok tt, [HTML (table_html data); Figure fig]).
Proof.
  intros H. unfold recalc. rewrite H.
  destruct (recalc_data_inv _ _ _ _ H) as (fk & fp & _ & _ & _ & ->).
  rewrite bar_chart_data_of. eexists. repeat split.
Qed.

Lemma recalc_raises model k p e out :
  recalc_data model k p = Raise e -> recalc model k p out = (Raise e, out).
Proof. intros H. unfold recalc. now rewrite H. Qed.

Lemma slider_distance_km_range k :
  In k (slider_values slider_distance_km) -> 0 <= k <= 400.
Proof.
  unfold slider_values. intros H. apply in_map_iff in H. destruct H as (i & <- & Hi).
  set (n := S _) in Hi. vm_compute in n. subst n.
  apply in_seq in Hi. cbn [slider_min slider_step slider_distance_km]. lia.
Qed.

Lemma slider_car_passengers_range p :
  In p (slider_values slider_car_passengers) -> 1 <= p <= 5.
Proof.
  unfold slider_values. intros H. apply in_map_iff in H. destruct H as (i & <- & Hi).
  set (n := S _) in Hi. vm_compute in n. subst n.
  apply in_seq in Hi. cbn [slider_min slider_step slider_car_passengers]. lia.
Qed.

Lemma pow2_1023_large : 1000 < 2 ^ 1023.
Proof. reflexivity. Qed.

(** Every setting of the three controls makes [recalc] render. *)
Lemma recalc_on_controls model k p out :
  In k (slider_values slider_distance_km) ->
  In p (slider_values slider_car_passengers) ->
  exists data, recalc_data model k p = Ok data /\ fst (recalc model k p out) = Ok tt.
Proof.
  intros Hk Hp. apply slider_distance_km_range in Hk. apply slider_car_passengers_range in Hp.
  pose proof pow2_1023_large as Hb.
  destruct (recalc_data_returns model k p) as (fk & fp & _ & _ & _ & E); try lia.
  eexists. split; [exact E|].
  destruct (recalc_renders _ _ _ _ out E) as (fig & _ & _ & _ & ->). reflexivity.
Qed.

Lemma dataset_idx_01 model : dataset_idx model = 0 \/ dataset_idx model = 1.
Proof. unfold dataset_idx. destruct (String.eqb model "OWID"); auto. Qed.

Lemma is_car_spec mode : is_car mode = true <-> In mode car_modes.
Proof.
  unfold is_car. rewrite existsb_exists. split.
  - intros (x & Hx & E). apply String.eqb_eq in E. now subst.
  - intros H. exists mode. split; [assumption|apply String.eqb_refl].
Qed.

Lemma car_modes_output mode : In mode car_modes -> In mode output_modes.
Proof. simpl. intuition. Qed.

(** ** binary64: the car entries against the occupancy *)

Lemma prec_pos : 0 < prec.
Proof. reflexivity. Qed.

Lemma digits_below (m : positive) (b : Z) :
  0 < b -> Zpos m < 2 ^ b -> Zpos (digits2_pos m) <= b.
Proof.
  intros Hb Hm. change (Zpos (digits2_pos m)) with (Zdigits2 (Zpos m)).
  rewrite Zdigits2_log2 by lia. apply Z.log2_lt_pow2 in Hm; lia.
Qed.

(** [float(p)] is exact for 1 <= p < 2^53. *)
Lemma float_of_int_exact p :
  1 <= p -> p < 2 ^ 53 ->
  exists my ey,
    float_of_int p = Ok (S754_finite false my ey) /\
    ey <= 0 /\ Zpos my = p * 2 ^ (- ey) /\ 2 ^ (prec - 1) <= Zpos my < 2 ^ prec.
Proof.
  intros Hp Hp'. destruct p as [|m|m]; try lia.
  pose proof (digits_below m 53 ltac:(lia) Hp') as Hd.
  destruct (binary_round_exact prec emax prec_pos false m) as (my & E & Hmy & Hn);
    try (rewrite ?emin_binary64; unfold prec, emax; lia).
  exists my, (Zpos (digits2_pos m) - prec).
  unfold float_of_int, Z2float, binary_normalize. rewrite E.
  split; [reflexivity|]. split; [unfold prec; lia|]. split; [|assumption].
  rewrite Hmy. f_equal. f_equal. lia.
Qed.

(** [float(k)] has a full mantissa for 1 <= k < 2^1023. *)
Lemma float_of_int_normal k :
  1 <= k -> k < 2 ^ 1023 ->
  exists mk ek,
    float_of_int k = Ok (S754_finite false mk ek) /\
    2 ^ (prec - 1) <= Zpos mk < 2 ^ prec /\ -52 <= ek <= 971.
Proof.
  intros Hk Hk'. destruct k as [|m|m]; try lia.
  pose proof (digits_below m 1023 ltac:(lia) Hk') as Hd.
  destruct (binary_round_normal prec emax prec_pos false m) as (mk & ek & E & Hn & He);
    try (rewrite ?emin_binary64; unfold prec, emax; lia).
  exists mk, ek. unfold float_of_int, Z2float, binary_normalize. rewrite E.
  split; [reflexivity|]. split; [assumption|]. unfold prec in He. lia.
Qed.

(** The factors of the two car modes are positive floats with full
    mantissas, between 2^-5 and 2^-2. *)
Lemma car_factor_normal mode idx :
  In mode car_modes -> idx = 0 \/ idx = 1 ->
  exists mf ef,
    factor_value mode idx = S754_finite false mf ef /\
    2 ^ (prec - 1) <= Zpos mf < 2 ^ prec /\ -57 <= ef <= -55.
Proof.
  intros Hm Hi. unfold car_modes in Hm. simpl in Hm.
  destruct Hm as [<-|[<-|[]]]; destruct Hi as [-> | ->];
    eexists; eexists; (split; [vm_compute; reflexivity|]);
    (split; split; [discriminate|reflexivity|discriminate|discriminate]).
Qed.

(** For distances 1 <= k < 2^1023 and occupancies 1 <= p1 < p2 <= 2^51 the
    car entries are strictly smaller at [p2] than at [p1]. *)
Lemma cars_strictly_decrease model k p1 p2 mode :
  1 <= k -> k < 2 ^ 1023 -> 1 <= p1 -> p1 < p2 -> p2 <= 2 ^ 51 ->
  In mode car_modes ->
  exists v1 v2, result_at model k p1 mode = Ok v1 /\
                result_at model k p2 mode = Ok v2 /\
                float_lt v2 v1 = true.
Proof.
  intros Hk Hk' Hp1 Hp12 Hp2 Hm.
  assert (H51 : 2 ^ 51 < 2 ^ 53) by reflexivity.
  destruct (float_of_int_normal k Hk Hk') as (mk & ek & Ek & Hmk & Hek).
  destruct (float_of_int_exact p1) as (my1 & ey1 & E1 & Hey1 & Hy1 & Hn1); try lia.
  destruct (float_of_int_exact p2) as (my2 & ey2 & E2 & Hey2 & Hy2 & Hn2); try lia.
  destruct (car_factor_normal mode _ Hm (dataset_idx_01 model)) as (mf & ef & Ef & Hmf & Hef).
  destruct (SFmul_normal prec emax prec_pos mf mk ef ek Hmf Hmk) as (mx & ex & Ex & Hmx & Hex);
    try (rewrite ?emin_binary64; unfold prec, emax; lia).
  pose proof (car_modes_output mode Hm) as Ho.
  apply is_car_spec in Hm.
  unfold result_at. rewrite !recalc_data_unfold, Ek, E1, E2. cbn [bind is_zero].
  rewrite !dict_getitem_data_of by assumption.
  unfold entry. cbn [snd]. rewrite Hm, Ef.
  unfold float_mul. rewrite Ex.
  eexists. eexists. split; [reflexivity|]. split; [reflexivity|].
  unfold float_lt, float_div.
  apply (SFdiv_integer_strict prec emax ltac:(reflexivity) mx my1 my2 ex ey1 ey2 p1 p2);
    try assumption; try (rewrite ?emin_binary64; unfold prec, emax in *; lia).
Qed.

(** [float(z)] raises OverflowError on every integer of magnitude 2^1024 or
    more. *)
Lemma float_of_int_overflow z :
  2 ^ 1024 <= Z.abs z -> float_of_int z = Raise OverflowError.
Proof.
  intros Hb.
  assert (Hd : forall m, 2 ^ 1024 <= Zpos m -> emax < Zpos (digits2_pos m)).
  { intros m Hm. change (Zpos (digits2_pos m)) with (Zdigits2 (Zpos m)).
    rewrite Zdigits2_log2 by lia.
    apply Z.log2_le_pow2 in Hm; [|lia]. unfold emax. lia. }
  assert (H0 : 0 < 2 ^ 1024) by reflexivity.
  unfold float_of_int, Z2float, binary_normalize.
  destruct z as [|m|m]; [simpl in Hb; lia| |];
    rewrite (binary_round_overflow prec emax prec_pos);
    rewrite ?emin_binary64; unfold prec, emax; try lia; try reflexivity;
    apply Hd; lia.
Qed.

(** ** The claims *)

(** The value [recalc] stores for a mode is the formula's, and its sign is
    the sign of the occupancy when the distance is not negative. *)
Lemma entry_spec model mode k p fk fp :
  In mode output_modes ->
  float_of_int k = Ok fk -> float_of_int p = Ok fp -> is_zero fp = false ->
  0 <= k ->
  let v := snd (entry (dataset_idx model) fk fp mode) in
  spec_result model mode k p = Ok v /\
  signed (if is_car mode then p <? 0 else false) v.
Proof.
  intros Hm Ek Ep Zp Hk v. subst v.
  pose proof (dataset_idx_01 model) as Hi.
  destruct (factor_value_nonneg mode _ Hm Hi) as [Ff Sf].
  destruct (float_of_int_inv _ _ Ek) as (_ & Fk & Sk & _).
  destruct (float_of_int_inv _ _ Ep) as (_ & Fp & Sp & _).
  replace (k <? 0) with false in Sk by (symmetry; apply Z.ltb_ge; lia).
  pose proof (float_mul_signed _ _ _ _ Sf Sk Ff Fk) as Sx. cbn [xorb] in Sx.
  unfold spec_result. rewrite (factor_ok mode _ Hm Hi). cbn [bind].
  unfold float_mul_int. rewrite Ek. cbn [bind].
  unfold entry. cbn [snd]. destruct (is_car mode).
  - unfold float_truediv_int. rewrite Ep. cbn [bind]. rewrite Zp. split; [reflexivity|].
    apply (float_div_signed false (p <? 0)); assumption.
  - split; [reflexivity|assumption].
Qed.

(** At distance 0 every entry is a zero, for any dataset and any occupancy
    at which the dictionary is produced. *)
Lemma zero_distance model p data mode :
  recalc_data model 0 p = Ok data -> In mode output_modes ->
  exists v, dict_getitem data mode = Ok v /\ is_zero v = true.
Proof.
  intros H Hm.
  destruct (recalc_data_inv _ _ _ _ H) as (fk & fp & Ek & Ep & Zp & ->).
  assert (fk = S754_zero false) as -> by (inversion Ek; reflexivity).
  destruct (float_of_int_inv _ _ Ep) as (_ & Fp & _ & _).
  destruct (factor_value_nonneg mode _ Hm (dataset_idx_01 model)) as [Ff _].
  rewrite dict_getitem_data_of by assumption. eexists. split; [reflexivity|].
  unfold entry. cbn [snd].
  destruct (factor_value mode (dataset_idx model)) as [s|s| |s m e]; try discriminate;
    destruct fp as [s'|s'| |s' m' e']; try discriminate;
    destruct (is_car mode); reflexivity.
Qed.



(** C2: whatever the input, the dictionary [recalc] computes has exactly
    the six keys bicycle, coach bus, gasoline car, electric car, motorbike
    and rail CH: looking up a name succeeds on these and on no other. *)
Theorem recalc_data_keys (model : string) (k p : Z) (data : dict float) :
  recalc_data model k p = Ok data ->
  keys data = output_modes /\
  forall mode, (exists v, dict_getitem data mode = Ok v) <-> In mode output_modes.
Proof.
  intros H. destruct (recalc_data_inv _ _ _ _ H) as (fk & fp & _ & _ & _ & ->).
  split; [apply keys_data_of|].
  intros mode. rewrite dict_getitem_in, keys_data_of. reflexivity.
Qed.

Lemma recalc_data_keys_witness :
  keys (data_of 1 (Z2float 200) (Z2float 1)) = output_modes /\
  forall mode, (exists v, dict_getitem (data_of 1 (Z2float 200) (Z2float 1)) mode = Ok v)
               <-> In mode output_modes.
Proof. apply (recalc_data_keys "PSI" 200 1). reflexivity. Defined.

(** The entries of the modes that are not cars do not depend on the
    occupancy. *)
Lemma other_modes_ignore_occupancy model k p1 p2 d1 d2 mode :
  recalc_data model k p1 = Ok d1 -> recalc_data model k p2 = Ok d2 ->
  In mode output_modes -> ~ In mode car_modes ->
  dict_getitem d1 mode = dict_getitem d2 mode.
Proof.
  intros E1 E2 Hm Hc.
  destruct (recalc_data_inv _ _ _ _ E1) as (fk & f1 & Ek & _ & _ & ->).
  destruct (recalc_data_inv _ _ _ _ E2) as (fk' & f2 & Ek' & _ & _ & ->).
  assert (fk' = fk) as -> by congruence.
  rewrite !dict_getitem_data_of by assumption. unfold entry. cbn [snd].
  destruct (is_car mode) eqn:C; [|reflexivity].
  apply is_car_spec in C. contradiction.
Qed.

(** C3, as the code has it: for every dataset, every distance
    1 <= k < 2^1023 and occupancies 1 <= p1 < p2 <= 2^51, the gasoline-car
    and electric-car entries are strictly smaller at p2 than at p1; and for
    all integers, the entries of bicycle, coach bus, motorbike and rail CH
    are the same at any two occupancies. *)
Theorem occupancy_effect (model : string) :
  (forall k p1 p2,
   1 <= k -> k < 2 ^ 1023 -> 1 <= p1 -> p1 < p2 -> p2 <= 2 ^ 51 ->
   forall mode, In mode car_modes ->
   exists v1 v2, result_at model k p1 mode = Ok v1 /\
                 result_at model k p2 mode = Ok v2 /\
                 float_lt v2 v1 = true) /\
  (forall k p1 p2 d1 d2,
   recalc_data model k p1 = Ok d1 -> recalc_data model k p2 = Ok d2 ->
   forall mode, In mode output_modes -> ~ In mode car_modes ->
   dict_getitem d1 mode = dict_getitem d2 mode).
Proof.
  split.
  - intros k p1 p2 Hk Hk' H1 H12 H2 mode Hm.
    now apply cars_strictly_decrease.
  - intros k p1 p2 d1 d2 E1 E2 mode Hm Hc.
    now apply (other_modes_ignore_occupancy model k p1 p2).
Qed.

Lemma occupancy_effect_witness :
  (exists v1 v2, result_at "PSI" 200 1 "gasoline car" = Ok v1 /\
                 result_at "PSI" 200 2 "gasoline car" = Ok v2 /\
                 float_lt v2 v1 = true) /\
  result_at "PSI" 200 1 "motorbike" = result_at "PSI" 200 2 "motorbike".
Proof.
  destruct (occupancy_effect "PSI") as [Hcars Hothers]. split.
  - apply (Hcars 200 1 2); [lia|reflexivity|lia|lia|discriminate|simpl; tauto].
  - apply (Hothers 200 1 2 (data_of 1 (Z2float 200) (Z2float 1))
                   (data_of 1 (Z2float 200) (Z2float 2)) eq_refl eq_refl "motorbike").
    + simpl; tauto.
    + simpl. intros [H|[H|[]]]; discriminate.
Defined.

(** C3, as stated, fails: with 200 km under PSI, the occupancies 2^53 and
    2^53 + 1 convert to the same float, so the gasoline-car entries are
    equal and the larger occupancy gives no smaller result. *)
Lemma occupancy_not_strict :
  1 <= 2 ^ 53 /\ 2 ^ 53 < 2 ^ 53 + 1 /\
  exists v, result_at "PSI" 200 (2 ^ 53) "gasoline car" = Ok v /\
            result_at "PSI" 200 (2 ^ 53 + 1) "gasoline car" = Ok v /\
            float_lt v v = false.
Proof.
  split; [lia|]. split; [lia|].
  exists (S754_finite false 6811694436397875 (-100)).
  repeat split; vm_compute; reflexivity.
Qed.

(** C4, as stated, fails at one of its six values: at 100 km under PSI the
    rail CH entry is the double next above the one the literal 0.7 denotes. *)
Lemma worked_example_rail_CH_inexact :
  result_at "PSI" 100 1 "rail CH" = Ok (S754_finite false 6305039478318695 (-53)) /\
  literal 7 1 = S754_finite false 6305039478318694 (-53) /\
  float_eq (S754_finite false 6305039478318695 (-53)) (literal 7 1) = false.
Proof. repeat split; vm_compute; reflexivity. Qed.

(** C4, as the code has it: the worked examples are reproduced exactly,
    except that the rail CH entry at k=100 under PSI is 0.7000000000000001,
    which the table shows as 0.7. *)
Theorem worked_examples :
  result_at "PSI" 200 1 "gasoline car" = Ok (literal 484 1) /\
  result_at "OWID" 200 1 "gasoline car" = Ok (literal 340 1) /\
  result_at "PSI" 100 1 "bicycle" = Ok (literal 6 1) /\
  result_at "PSI" 100 1 "rail CH" = Ok (literal 7000000000000001 16) /\
  format_1f (literal 7000000000000001 16) = "0.7" /\
  result_at "PSI" 100 1 "electric car" = Ok (literal 110 1) /\
  result_at "PSI" 100 4 "electric car" = Ok (literal 275 2).
Proof. repeat split; vm_compute; reflexivity. Qed.

(** C5: the emission table has an entry for each of the eleven modes, each
    entry holds two non-negative factors, and the PSI factor of rail UK is
    exactly 0. *)
Theorem emission_table_entries :
  keys kgco2e_per_km = required_modes /\
  (forall mode, In mode required_modes ->
   exists a b, dict_getitem kgco2e_per_km mode = Ok [a; b] /\
               float_ge0 a = true /\ float_ge0 b = true) /\
  factor "rail UK" 1 = Ok (S754_zero false) /\
  dict_getitem gco2e_per_km "rail UK" = Ok [35; 0].
Proof.
  split; [reflexivity|]. split; [|split; reflexivity].
  intros mode Hm. unfold required_modes in Hm. simpl in Hm.
  repeat (destruct Hm as [<-|Hm];
          [eexists; eexists; split; [vm_compute; reflexivity|split; reflexivity]|]).
  contradiction.
Qed.

Lemma float_truediv_int_no_zero_division x p :
  p <> 0 -> float_truediv_int x p <> Raise ZeroDivisionError.
Proof.
  intros Hp. unfold float_truediv_int.
  destruct (float_of_int p) as [fp|e] eqn:E; cbn [bind].
  - destruct (float_of_int_inv _ _ E) as (_ & _ & _ & Zp).
    apply Z.eqb_neq in Hp. rewrite Hp in Zp. rewrite Zp. discriminate.
  - unfold float_of_int in E. destruct (Z2float p); inversion E. discriminate.
Qed.

Lemma recalc_data_no_zero_division model k p :
  p <> 0 -> recalc_data model k p <> Raise ZeroDivisionError.
Proof.
  intros Hp. rewrite recalc_data_unfold.
  destruct (float_of_int k) as [fk|e] eqn:Ek; cbn [bind].
  - destruct (float_of_int p) as [fp|e] eqn:Ep; cbn [bind].
    + destruct (float_of_int_inv _ _ Ep) as (_ & _ & _ & Zp).
      apply Z.eqb_neq in Hp. rewrite Hp in Zp. rewrite Zp. discriminate.
    + unfold float_of_int in Ep. destruct (Z2float p); inversion Ep. discriminate.
  - unfold float_of_int in Ek. destruct (Z2float k); inversion Ek. discriminate.
Qed.

(** C6: with car_passengers >= 1 no division of [recalc] divides by zero:
    neither the quotient by the occupancy, nor the dictionary display, nor
    the call as a whole raises ZeroDivisionError, for every dataset and every
    distance; and every setting of the controls renders without error. *)
Theorem no_zero_division (model : string) (k p : Z) :
  1 <= p ->
  (forall x, float_truediv_int x p <> Raise ZeroDivisionError) /\
  recalc_data model k p <> Raise ZeroDivisionError /\
  (forall out, fst (recalc model k p out) <> Raise ZeroDivisionError) /\
  (In k (slider_values slider_distance_km) ->
   In p (slider_values slider_car_passengers) ->
   forall out, fst (recalc model k p out) = Ok tt).
Proof.
  intros Hp. assert (Hp0 : p <> 0) by lia.
  split; [intros x; now apply float_truediv_int_no_zero_division|].
  pose proof (recalc_data_no_zero_division model k p Hp0) as Hd.
  split; [exact Hd|]. split.
  - intros out. destruct (recalc_data model k p) as [data|e] eqn:E.
    + destruct (recalc_renders _ _ _ _ out E) as (fig & _ & _ & _ & ->). discriminate.
    + rewrite (recalc_raises _ _ _ _ out E). simpl. congruence.
  - intros Hk Hps out.
    destruct (recalc_on_controls model k p out Hk Hps) as (data & _ & H). exact H.
Qed.

Lemma no_zero_division_witness :
  recalc_data "OWID" 400 5 <> Raise ZeroDivisionError /\
  fst (recalc "OWID" 400 5 []) = Ok tt.
Proof.
  destruct (no_zero_division "OWID" 400 5) as (_ & Hd & _ & Hc); [lia|].
  split; [exact Hd|]. apply Hc; vm_compute; tauto.
Defined.

(** C7, as stated, fails: a negative car_passengers raises nothing.  With
    200 km, PSI and -1 passenger [recalc] returns its dictionary, whose
    gasoline-car entry is -48.4, and renders it. *)
Lemma negative_passengers_accepted :
  result_at "PSI" 200 (-1) "gasoline car" = Ok (float_neg (literal 484 1)) /\
  fst (recalc "PSI" 200 (-1) []) = Ok tt /\
  recalc_data "PSI" 200 0 = Raise ZeroDivisionError.
Proof. repeat split; vm_compute; reflexivity. Qed.

(** C7, as the code has it: there is no InvalidInput error.  For a distance
    0 <= k < 2^1023, car_passengers = 0 raises Python's ZeroDivisionError and
    leaves the output as it was; a negative car_passengers above -2^1023
    raises nothing: the dictionary is returned and rendered, and its two car
    entries are the formula's values, which are not positive; a negative
    car_passengers of -2^1024 or below does not convert to a float: it
    raises Python's OverflowError and leaves the output as it was. *)
Theorem nonpositive_passengers (model : string) (k : Z) :
  0 <= k -> k < 2 ^ 1023 ->
  (recalc_data model k 0 = Raise ZeroDivisionError /\
   forall out, recalc model k 0 out = (Raise ZeroDivisionError, out)) /\
  (forall p, - 2 ^ 1023 < p -> p < 0 ->
   exists data, recalc_data model k p = Ok data /\
   (forall out, fst (recalc model k p out) = Ok tt) /\
   forall mode, In mode car_modes ->
   exists v, dict_getitem data mode = Ok v /\
             spec_result model mode k p = Ok v /\
             float_lt (S754_zero false) v = false) /\
  (forall p, p <= - 2 ^ 1024 ->
   recalc_data model k p = Raise OverflowError /\
   forall out, recalc model k p out = (Raise OverflowError, out)).
Proof.
  intros Hk Hk'. split; [|split].
  - assert (E : recalc_data model k 0 = Raise ZeroDivisionError).
    { rewrite recalc_data_unfold.
      destruct (float_of_int_ok k) as (fk & Ek & _); [lia|].
      rewrite Ek. reflexivity. }
    split; [exact E|]. intros out. now apply recalc_raises.
  - intros p Hp' Hp.
    destruct (recalc_data_returns model k p) as (fk & fp & Ek & Ep & Zp & E); try lia.
    eexists. split; [exact E|]. split.
    { intros out. destruct (recalc_renders _ _ _ _ out E) as (fig & _ & _ & _ & ->).
      reflexivity. }
    intros mode Hm.
    pose proof (car_modes_output mode Hm) as Ho.
    destruct (entry_spec model mode k p fk fp Ho Ek Ep Zp Hk) as [Es Sv].
    apply is_car_spec in Hm. rewrite Hm in Sv.
    replace (p <? 0) with true in Sv by (symmetry; apply Z.ltb_lt; lia).
    eexists. split; [now apply dict_getitem_data_of|]. split; [exact Es|].
    now apply SFltb_zero_signed.
  - intros p Hp.
    assert (H0 : 0 < 2 ^ 1024) by reflexivity.
    assert (E : recalc_data model k p = Raise OverflowError).
    { rewrite recalc_data_unfold.
      destruct (float_of_int_ok k) as (fk & Ek & _); [lia|].
      rewrite Ek, (float_of_int_overflow p) by lia. reflexivity. }
    split; [exact E|]. intros out. now apply recalc_raises.
Qed.

Lemma nonpositive_passengers_witness :
  recalc_data "PSI" 200 0 = Raise ZeroDivisionError /\
  (exists data, recalc_data "PSI" 200 (-2) = Ok data /\
   (forall out, fst (recalc "PSI" 200 (-2) out) = Ok tt) /\
   forall mode, In mode car_modes ->
   exists v, dict_getitem data mode = Ok v /\
             spec_result "PSI" mode 200 (-2) = Ok v /\
             float_lt (S754_zero false) v = false) /\
  recalc_data "PSI" 200 (- 2 ^ 1024) = Raise OverflowError.
Proof.
  destruct (nonpositive_passengers "PSI" 200) as ([H0 _] & Hneg & Hbig); [lia|reflexivity|].
  split; [exact H0|]. split.
  - apply Hneg; reflexivity.
  - apply Hbig. apply Z.le_refl.
Defined.

(** C8: [recalc] is deterministic.  Its outcome does not depend on what the
    output held before; when it returns, the rendered table and chart are a
    function of (dataset, distance_km, car_passengers) alone, the chart
    plotting the dictionary's keys and values; and a second call with the
    same inputs changes nothing. *)
Theorem recalc_deterministic (model : string) (k p : Z) (out1 out2 : Output) :
  (forall d1 d2, recalc_data model k p = Ok d1 -> recalc_data model k p = Ok d2 -> d1 = d2) /\
  fst (recalc model k p out1) = fst (recalc model k p out2) /\
  (fst (recalc model k p out1) = Ok tt ->
   snd (recalc model k p out1) = snd (recalc model k p out2) /\
   exists data fig, recalc_data model k p = Ok data /\
                    bar_labels fig = keys data /\ bar_values fig = map snd data /\
                    snd (recalc model k p out1) = [HTML (table_html data); Figure fig]) /\
  recalc model k p (snd (recalc model k p out1)) = recalc model k p out1.
Proof.
  split; [intros d1 d2 E1 E2; congruence|].
  destruct (recalc_data model k p) as [data|e] eqn:E.
  - destruct (recalc_renders _ _ _ _ out1 E) as (fig & Hf & Hl & Hv & E1).
    destruct (recalc_renders _ _ _ _ out2 E) as (fig2 & Hf2 & _ & _ & E2).
    assert (fig2 = fig) as -> by congruence.
    rewrite E1, E2. cbn [fst snd]. split; [reflexivity|]. split.
    + intros _. split; [reflexivity|]. exists data, fig. auto.
    + destruct (recalc_renders _ _ _ _ [HTML (table_html data); Figure fig] E)
        as (fig3 & Hf3 & _ & _ & E3).
      assert (fig3 = fig) as -> by congruence. exact E3.
  - assert (R : forall out, recalc model k p out = (Raise e, out))
      by (intros out; now apply recalc_raises).
    rewrite !R. cbn [fst snd]. rewrite ?R.
    split; [reflexivity|]. split; [discriminate|reflexivity].
Qed.

Lemma recalc_deterministic_witness :
  snd (recalc "PSI" 200 1 []) = snd (recalc "PSI" 200 1 [HTML "stale"]).
Proof.
  destruct (recalc_deterministic "PSI" 200 1 [] [HTML "stale"]) as (_ & _ & H & _).
  apply H. reflexivity.
Defined.

(** The second number of a row of the table, the PSI figure, is the one
    [recalc] reads at index 1, in kilograms; for each of the six modes it
    differs from the OWID factor. *)
Lemma factor_PSI mode :
  In mode output_modes ->
  exists g_owid g_psi f,
    dict_getitem gco2e_per_km mode = Ok [g_owid; g_psi] /\
    int_truediv g_psi 1000 = Ok f /\
    factor mode 1 = Ok f /\
    factor mode 0 <> Ok f.
Proof.
  intros Hm. unfold output_modes in Hm. simpl in Hm.
  repeat (destruct Hm as [<-|Hm];
          [eexists; eexists; eexists;
           split; [reflexivity|]; split; [vm_compute; reflexivity|];
           split; [vm_compute; reflexivity|vm_compute; discriminate]|]).
  contradiction.
Qed.

(** What [recalc] raises does not depend on the dataset name. *)
Lemma recalc_data_raises_any_model model model' k p e :
  recalc_data model k p = Raise e -> recalc_data model' k p = Raise e.
Proof.
  rewrite !recalc_data_unfold.
  destruct (float_of_int k) as [fk|ek]; cbn [bind]; [|auto].
  destruct (float_of_int p) as [fp|ep]; cbn [bind]; [|auto].
  destruct (is_zero fp); [auto|discriminate].
Qed.

(** C9: every dataset name other than the exact string OWID selects the PSI
    factors.  The index is 1 and the call behaves as with PSI, in its
    dictionary, in what it raises and in what it renders; the name causes no
    error: whatever the call raises, it raises under OWID too, and it returns
    and renders whenever both integers are below 2^1023 in magnitude and the
    occupancy is not 0; and each of the six entries of the dictionary is
    computed from the second number of the mode's row of the table, the PSI
    figure, divided by 1000, which is not the mode's OWID factor: that
    factor times the distance, divided by the occupancy for the two car
    modes. *)
Theorem unknown_dataset_is_PSI (model : string) (k p : Z) (out : Output) :
  model <> "OWID" ->
  dataset_idx model = 1 /\
  recalc_data model k p = recalc_data "PSI" k p /\
  recalc model k p out = recalc "PSI" k p out /\
  (forall e, recalc_data model k p = Raise e -> recalc_data "OWID" k p = Raise e) /\
  (Z.abs k < 2 ^ 1023 -> Z.abs p < 2 ^ 1023 -> p <> 0 ->
   exists data, recalc_data model k p = Ok data /\ fst (recalc model k p out) = Ok tt) /\
  (forall data, recalc_data model k p = Ok data ->
   keys data = output_modes /\
   forall mode, In mode output_modes ->
   exists g_owid g_psi f x v,
     dict_getitem gco2e_per_km mode = Ok [g_owid; g_psi] /\
     int_truediv g_psi 1000 = Ok f /\
     factor mode 1 = Ok f /\
     factor mode 0 <> Ok f /\
     float_mul_int f k = Ok x /\
     (if is_car mode then float_truediv_int x p else Ok x) = Ok v /\
     dict_getitem data mode = Ok v).
Proof.
  intros Hne.
  assert (Hi : dataset_idx model = 1).
  { unfold dataset_idx. apply String.eqb_neq in Hne. now rewrite Hne. }
  assert (Hd : recalc_data model k p = recalc_data "PSI" k p).
  { rewrite !recalc_data_unfold, Hi. reflexivity. }
  split; [exact Hi|]. split; [exact Hd|].
  split; [unfold recalc; now rewrite Hd|].
  split; [intros e; apply recalc_data_raises_any_model|]. split.
  - intros Hk Hp Hp0.
    destruct (recalc_data_returns model k p Hk Hp Hp0) as (fk & fp & _ & _ & _ & E).
    eexists. split; [exact E|].
    destruct (recalc_renders _ _ _ _ out E) as (fig & _ & _ & _ & ->). reflexivity.
  - intros data H.
    destruct (recalc_data_inv _ _ _ _ H) as (fk & fp & Ek & Ep & Zp & ->).
    split; [apply keys_data_of|]. intros mode Hm.
    destruct (factor_PSI mode Hm) as (g_owid & g_psi & f & Hrow & Hdiv & Hf & Hf0).
    assert (Hv : dict_getitem (data_of (dataset_idx model) fk fp) mode
                 = Ok (if is_car mode then float_div (float_mul f fk) fp else float_mul f fk)).
    { rewrite dict_getitem_data_of by assumption.
      unfold entry. cbn [snd]. rewrite Hi. unfold factor_value. rewrite Hf.
      now destruct (is_car mode). }
    exists g_owid, g_psi, f, (float_mul f fk). eexists.
    split; [exact Hrow|]. split; [exact Hdiv|]. split; [exact Hf|]. split; [exact Hf0|].
    unfold float_mul_int. rewrite Ek. cbn [bind]. split; [reflexivity|].
    split; [|exact Hv].
    destruct (is_car mode); [|reflexivity].
    unfold float_truediv_int. rewrite Ep. cbn [bind]. now rewrite Zp.
Qed.

Lemma unknown_dataset_is_PSI_witness :
  recalc "" 200 2 [] = recalc "PSI" 200 2 [] /\
  (exists data, recalc_data "owid" 200 2 = Ok data /\
                fst (recalc "owid" 200 2 []) = Ok tt) /\
  exists g_owid g_psi f x v,
    dict_getitem gco2e_per_km "gasoline car" = Ok [g_owid; g_psi] /\
    int_truediv g_psi 1000 = Ok f /\
    factor "gasoline car" 1 = Ok f /\
    factor "gasoline car" 0 <> Ok f /\
    float_mul_int f 200 = Ok x /\
    float_truediv_int x 2 = Ok v /\
    result_at "owid" 200 2 "gasoline car" = Ok v.
Proof.
  split; [|split].
  - apply (unknown_dataset_is_PSI "" 200 2 []). discriminate.
  - apply (unknown_dataset_is_PSI "owid" 200 2 []);
      [discriminate|reflexivity|reflexivity|discriminate].
  - destruct (unknown_dataset_is_PSI "owid" 200 2 []) as (_ & _ & _ & _ & _ & H);
      [discriminate|].
    destruct (H (data_of 1 (Z2float 200) (Z2float 2)) eq_refl) as [_ Hm].
    apply (Hm "gasoline car"). simpl; tauto.
Defined.

(** C10: under OWID, for every distance k >= 0 and occupancy p >= 1, the
    bicycle and rail CH entries are exactly +0.0, shown as 0.0 like any
    other zero: the table's no-data zeros reach the output as zero
    emissions.  The dictionary exists whenever both integers are below
    2^1023. *)
Theorem owid_no_data_is_zero (k p : Z) :
  0 <= k -> 1 <= p ->
  (k < 2 ^ 1023 -> p < 2 ^ 1023 -> exists data, recalc_data "OWID" k p = Ok data) /\
  (forall data, recalc_data "OWID" k p = Ok data ->
   dict_getitem data "bicycle" = Ok (S754_zero false) /\
   dict_getitem data "rail CH" = Ok (S754_zero false) /\
   format_1f (S754_zero false) = "0.0").
Proof.
  intros Hk Hp. split.
  - intros Hk' Hp'.
    destruct (recalc_data_returns "OWID" k p) as (fk & fp & _ & _ & _ & E); try lia; eauto.
  - intros data H.
    destruct (recalc_data_inv _ _ _ _ H) as (fk & fp & Ek & _ & _ & ->).
    destruct (float_of_int_inv _ _ Ek) as (_ & Fk & Sk & _).
    replace (k <? 0) with false in Sk by (symmetry; apply Z.ltb_ge; lia).
    rewrite !dict_getitem_data_of by (simpl; tauto).
    unfold entry. cbn [snd].
    change (is_car "bicycle") with false. change (is_car "rail CH") with false.
    change (factor_value "bicycle" (dataset_idx "OWID")) with (S754_zero false).
    change (factor_value "rail CH" (dataset_idx "OWID")) with (S754_zero false).
    rewrite (float_mul_zero_l fk Fk Sk). repeat split.
Qed.

Lemma owid_no_data_is_zero_witness :
  (exists data, recalc_data "OWID" 400 5 = Ok data) /\
  result_at "OWID" 400 5 "bicycle" = Ok (S754_zero false).
Proof.
  destruct (owid_no_data_is_zero 400 5) as [Hex Hz]; [lia|lia|].
  split; [apply Hex; reflexivity|].
  destruct (Hz (data_of 0 (Z2float 400) (Z2float 5)) eq_refl) as (Hb & _).
  unfold result_at. change (recalc_data "OWID" 400 5) with (Ok (data_of 0 (Z2float 400) (Z2float 5))).
  exact Hb.
Defined.

(** ** Further properties of the notebook *)

(** *** Vocabulary *)

(** [x <= y] *)
Definition float_le (x y : float) : bool := SFleb x y.

(** The dictionary with the entries selected by [which] negated. *)
Definition negate_entries (which : string -> bool) (data : dict float) : dict float :=
  map (fun kv : string * float =>
         (fst kv, if which (fst kv) then float_neg (snd kv) else snd kv)) data.

(** Membership by evaluation. *)
Lemma In_Z_eval (z : Z) (l : list Z) : existsb (Z.eqb z) l = true -> In z l.
Proof.
  intros H. apply existsb_exists in H. destruct H as (x & Hx & E).
  apply Z.eqb_eq in E. now subst.
Qed.

Lemma In_string_eval (s : string) (l : list string) :
  existsb (String.eqb s) l = true -> In s l.
Proof.
  intros H. apply existsb_exists in H. destruct H as (x & Hx & E).
  apply String.eqb_eq in E. now subst.
Qed.

(** *** What [recalc] raises *)

Lemma float_of_int_raises z e :
  float_of_int z = Raise e -> e = OverflowError /\ 2 ^ 1023 <= Z.abs z.
Proof.
  intros H. split.
  - unfold float_of_int in H. destruct (Z2float z); inversion H; reflexivity.
  - destruct (Z_lt_le_dec (Z.abs z) (2 ^ 1023)) as [Hlt|]; [|assumption].
    destruct (float_of_int_ok z Hlt) as (f & E & _). congruence.
Qed.

(** X1: [recalc] raises ZeroDivisionError exactly when car_passengers is 0
    and the distance converts to a float, OverflowError exactly when one of
    the two integers does not convert (which takes a magnitude of at least
    2^1023), and never KeyError or IndexError; whenever the call raises, the
    output is left as it was. *)
Theorem recalc_exceptions (model : string) (k p : Z) :
  (recalc_data model k p = Raise ZeroDivisionError <->
   p = 0 /\ exists fk, float_of_int k = Ok fk) /\
  (recalc_data model k p = Raise OverflowError <->
   float_of_int k = Raise OverflowError \/ float_of_int p = Raise OverflowError) /\
  (recalc_data model k p = Raise OverflowError ->
   2 ^ 1023 <= Z.abs k \/ 2 ^ 1023 <= Z.abs p) /\
  recalc_data model k p <> Raise KeyError /\
  recalc_data model k p <> Raise IndexError /\
  (forall out e, fst (recalc model k p out) = Raise e ->
                 recalc_data model k p = Raise e /\ snd (recalc model k p out) = out).
Proof.
  assert (Hcases :
    (exists e, float_of_int k = Raise e /\ recalc_data model k p = Raise e) \/
    (exists fk e, float_of_int k = Ok fk /\ float_of_int p = Raise e /\
                  recalc_data model k p = Raise e) \/
    (exists fk, float_of_int k = Ok fk /\ p = 0 /\
                recalc_data model k p = Raise ZeroDivisionError) \/
    (exists fk fp data, float_of_int k = Ok fk /\ float_of_int p = Ok fp /\ p <> 0 /\
                        recalc_data model k p = Ok data)).
  { rewrite recalc_data_unfold.
    destruct (float_of_int k) as [fk|e] eqn:Ek; cbn [bind]; [|left; eauto].
    destruct (float_of_int p) as [fp|e] eqn:Ep; cbn [bind]; [|right; left; eauto].
    destruct (float_of_int_inv _ _ Ep) as (_ & _ & _ & Zp). rewrite Zp.
    destruct (Z.eqb_spec p 0) as [->|Hp].
    - right; right; left. eauto.
    - right; right; right. eauto 8. }
  assert (H0 : float_of_int 0 = Ok (S754_zero false)) by reflexivity.
  split; [|split; [|split; [|split; [|split]]]].
  - split.
    + intros H. destruct Hcases as [(e & Ek & E)|[(fk & e & Ek & Ep & E)|[(fk & Ek & Hp & E)|(fk & fp & d & Ek & Ep & Hp & E)]]].
      * destruct (float_of_int_raises _ _ Ek). congruence.
      * destruct (float_of_int_raises _ _ Ep). congruence.
      * eauto.
      * congruence.
    + intros [-> (fk & Ek)]. rewrite recalc_data_unfold, Ek, H0. reflexivity.
  - split.
    + intros H. destruct Hcases as [(e & Ek & E)|[(fk & e & Ek & Ep & E)|[(fk & Ek & Hp & E)|(fk & fp & d & Ek & Ep & Hp & E)]]].
      * left. congruence.
      * right. congruence.
      * congruence.
      * congruence.
    + rewrite recalc_data_unfold. intros [Ek|Ep].
      * rewrite Ek. reflexivity.
      * destruct (float_of_int k) as [fk|e] eqn:Ek; cbn [bind].
        -- rewrite Ep. reflexivity.
        -- destruct (float_of_int_raises _ _ Ek) as [-> _]. reflexivity.
  - intros H. destruct Hcases as [(e & Ek & E)|[(fk & e & Ek & Ep & E)|[(fk & Ek & Hp & E)|(fk & fp & d & Ek & Ep & Hp & E)]]].
    + left. now destruct (float_of_int_raises _ _ Ek).
    + right. now destruct (float_of_int_raises _ _ Ep).
    + congruence.
    + congruence.
  - intros H. destruct Hcases as [(e & Ek & E)|[(fk & e & Ek & Ep & E)|[(fk & Ek & Hp & E)|(fk & fp & d & Ek & Ep & Hp & E)]]].
    + destruct (float_of_int_raises _ _ Ek). congruence.
    + destruct (float_of_int_raises _ _ Ep). congruence.
    + congruence.
    + congruence.
  - intros H. destruct Hcases as [(e & Ek & E)|[(fk & e & Ek & Ep & E)|[(fk & Ek & Hp & E)|(fk & fp & d & Ek & Ep & Hp & E)]]].
    + destruct (float_of_int_raises _ _ Ek). congruence.
    + destruct (float_of_int_raises _ _ Ep). congruence.
    + congruence.
    + congruence.
  - intros out e H. destruct (recalc_data model k p) as [data|e'] eqn:E.
    + destruct (recalc_renders _ _ _ _ out E) as (fig & _ & _ & _ & R).
      rewrite R in H. discriminate.
    + rewrite (recalc_raises _ _ _ _ out E) in *. cbn [fst snd] in *. split; congruence.
Qed.

(** *** Negative inputs *)

Lemma binary_round_aux_opp prec emax sx mx ex lx :
  binary_round_aux prec emax (negb sx) mx ex lx
  = SFopp (binary_round_aux prec emax sx mx ex lx).
Proof.
  rewrite !binary_round_aux_eq.
  destruct (round_m prec emax mx ex lx); try reflexivity.
  destruct (_ <=? _); reflexivity.
Qed.

Lemma binary_round_opp prec emax sx m e :
  binary_round prec emax (negb sx) m e = SFopp (binary_round prec emax sx m e).
Proof.
  unfold binary_round. destruct (shl_align _ _ _) as [mz ez].
  apply binary_round_aux_opp.
Qed.

Lemma Z2float_opp z : z <> 0 -> Z2float (- z) = float_neg (Z2float z).
Proof.
  intros Hz. unfold Z2float, float_neg.
  destruct z as [|m|m]; [congruence| |]; cbn [Z.opp binary_normalize].
  - apply (binary_round_opp prec emax false).
  - apply (binary_round_opp prec emax true).
Qed.

Lemma float_of_int_opp z f :
  z <> 0 -> float_of_int z = Ok f -> float_of_int (- z) = Ok (float_neg f).
Proof.
  intros Hz H. unfold float_of_int in *. rewrite (Z2float_opp z Hz).
  destruct (Z2float z); inversion H; reflexivity.
Qed.

Lemma float_mul_neg_r x y : float_mul x (float_neg y) = float_neg (float_mul x y).
Proof.
  unfold float_mul, float_neg.
  destruct x as [s1|s1| |s1 m1 e1], y as [s2|s2| |s2 m2 e2]; cbn [SFmul SFopp];
    try reflexivity; try (now rewrite <- negb_xorb_r).
  rewrite <- negb_xorb_r. apply binary_round_aux_opp.
Qed.

Lemma float_div_neg_r x y : float_div x (float_neg y) = float_neg (float_div x y).
Proof.
  unfold float_div, float_neg.
  destruct x as [s1|s1| |s1 m1 e1], y as [s2|s2| |s2 m2 e2]; cbn [SFdiv SFopp];
    try reflexivity; try (now rewrite <- negb_xorb_r).
  destruct (SFdiv_core_binary prec emax (Zpos m1) e1 (Zpos m2) e2) as [[mz ez] lz].
  rewrite <- negb_xorb_r. apply binary_round_aux_opp.
Qed.

Lemma float_div_neg_l x y : float_div (float_neg x) y = float_neg (float_div x y).
Proof.
  unfold float_div, float_neg.
  destruct x as [s1|s1| |s1 m1 e1], y as [s2|s2| |s2 m2 e2]; cbn [SFdiv SFopp];
    try reflexivity; try (now rewrite <- negb_xorb_l).
  destruct (SFdiv_core_binary prec emax (Zpos m1) e1 (Zpos m2) e2) as [[mz ez] lz].
  rewrite <- negb_xorb_l. apply binary_round_aux_opp.
Qed.

(** X2: negative inputs are computed with, not rejected.  If [recalc]
    produces a dictionary at (k, p), then at (k, -p) it produces the same
    dictionary with the two car entries negated, and at (-k, p), for k <> 0,
    the same dictionary with every entry negated. *)
Theorem recalc_negated_inputs (model : string) (k p : Z) (data : dict float) :
  recalc_data model k p = Ok data ->
  recalc_data model k (- p) = Ok (negate_entries is_car data) /\
  (k <> 0 -> recalc_data model (- k) p = Ok (negate_entries (fun _ => true) data)).
Proof.
  intros H.
  destruct (recalc_data_inv _ _ _ _ H) as (fk & fp & Ek & Ep & Zp & ->).
  destruct (float_of_int_inv _ _ Ep) as (_ & _ & _ & Zp').
  assert (Hp : p <> 0) by (apply Z.eqb_neq; congruence).
  split.
  - rewrite recalc_data_unfold, Ek, (float_of_int_opp p fp Hp Ep). cbn [bind].
    assert (Zn : is_zero (float_neg fp) = false) by (destruct fp; assumption).
    rewrite Zn, !data_of_eq. unfold negate_entries. cbn [map fst snd].
    change (is_car "bicycle") with false. change (is_car "coach bus") with false.
    change (is_car "gasoline car") with true. change (is_car "electric car") with true.
    change (is_car "motorbike") with false. change (is_car "rail CH") with false.
    cbv iota. rewrite !float_div_neg_r. reflexivity.
  - intros Hk.
    rewrite recalc_data_unfold, (float_of_int_opp k fk Hk Ek), Ep. cbn [bind].
    rewrite Zp, !data_of_eq. unfold negate_entries. cbn [map fst snd].
    rewrite !float_mul_neg_r, !float_div_neg_l. reflexivity.
Qed.

Lemma recalc_negated_inputs_witness :
  recalc_data "PSI" 200 (- (2)) = Ok (negate_entries is_car (data_of 1 (Z2float 200) (Z2float 2))).
Proof. apply (recalc_negated_inputs "PSI" 200 2). reflexivity. Defined.

(** X3: at distance 0 every entry of the dictionary is a zero, for every
    dataset and every occupancy at which the dictionary is produced; with a
    positive occupancy it is +0.0, shown as 0.0. *)
Theorem zero_distance_entries (model : string) (p : Z) (data : dict float) (mode : string) :
  recalc_data model 0 p = Ok data -> In mode output_modes ->
  exists v, dict_getitem data mode = Ok v /\ is_zero v = true /\
            (0 < p -> v = S754_zero false /\ format_1f v = "0.0").
Proof.
  intros H Hm.
  destruct (zero_distance model p data mode H Hm) as (v & Hv & Zv).
  exists v. split; [assumption|]. split; [assumption|]. intros Hp.
  destruct (recalc_data_inv _ _ _ _ H) as (fk & fp & Ek & Ep & Zp & ->).
  destruct (entry_spec model mode 0 p fk fp Hm Ek Ep Zp ltac:(lia)) as [_ Sv].
  rewrite dict_getitem_data_of in Hv by assumption.
  assert (Ev : snd (entry (dataset_idx model) fk fp mode) = v) by congruence.
  rewrite Ev in Sv.
  replace (p <? 0) with false in Sv by (symmetry; apply Z.ltb_ge; lia).
  assert (Sv' : signed false v) by (destruct (is_car mode); assumption).
  destruct v as [s|s| |s m e]; try discriminate. simpl in Sv'. subst s. split; reflexivity.
Qed.

Lemma zero_distance_entries_witness :
  exists v, dict_getitem (data_of 1 (Z2float 0) (Z2float 3)) "gasoline car" = Ok v /\
            is_zero v = true /\ (0 < 3 -> v = S754_zero false /\ format_1f v = "0.0").
Proof.
  apply (zero_distance_entries "PSI" 3 _ "gasoline car"); [reflexivity|simpl; tauto].
Defined.

(** *** Over the range of the controls *)

(** Checks over one setting, from the dataset index. *)
Definition within_ylim (idx k p : Z) : bool :=
  match float_of_int k, float_of_int p with
  | Ok fk, Ok fp =>
      negb (is_zero fp) &&
      forallb (fun kv : string * float =>
                 float_le (Z2float 0) (snd kv) && float_le (snd kv) (Z2float 100))
              (data_of idx fk fp)
  | _, _ => false
  end.

Definition psi_not_below (k p : Z) : bool :=
  match float_of_int k, float_of_int p with
  | Ok fk, Ok fp =>
      negb (is_zero fp) &&
      forallb (fun mode => float_le (snd (entry 0 fk fp mode)) (snd (entry 1 fk fp mode)))
              output_modes
  | _, _ => false
  end.

(** The dictionary at one setting, from the dataset index. *)
Definition data_at (idx k p : Z) : option (dict float) :=
  match float_of_int k, float_of_int p with
  | Ok fk, Ok fp => if is_zero fp then None else Some (data_of idx fk fp)
  | _, _ => None
  end.

(** The dictionaries along the distance slider. *)
Definition distance_rows (idx p : Z) : list (Z * option (dict float)) :=
  map (fun k => (k, data_at idx k p)) (slider_values slider_distance_km).

(** The reported modes, each with whether its factor is a zero. *)
Definition zero_flags (idx : Z) : list (string * bool) :=
  map (fun mode => (mode, is_zero (factor_value mode idx))) output_modes.

(** Every entry of [d2] is above the entry of [d1], or equal to it where
    the factor is a zero. *)
Definition grows (flags : list (string * bool)) (d1 d2 : dict float) : bool :=
  forallb (fun mz : string * bool =>
             match dict_getitem d1 (fst mz), dict_getitem d2 (fst mz) with
             | Ok v1, Ok v2 => if snd mz then float_eq v1 v2 else float_lt v1 v2
             | _, _ => false
             end) flags.

Lemma within_ylim_on_controls :
  forallb (fun idx =>
    forallb (fun k =>
      forallb (fun p => within_ylim idx k p) (slider_values slider_car_passengers))
      (slider_values slider_distance_km))
    [0; 1] = true.
Proof. vm_compute. reflexivity. Qed.

Lemma psi_not_below_on_controls :
  forallb (fun k =>
    forallb (fun p => psi_not_below k p) (slider_values slider_car_passengers))
    (slider_values slider_distance_km) = true.
Proof. vm_compute. reflexivity. Qed.

Lemma grows_with_distance_on_controls idx :
  idx = 0 \/ idx = 1 ->
  forallb (fun flags =>
    forallb (fun p =>
      forallb (fun rows =>
        forallb (fun r1 : Z * option (dict float) =>
          forallb (fun r2 : Z * option (dict float) =>
            if fst r1 <? fst r2
            then match snd r1, snd r2 with
                 | Some d1, Some d2 => grows flags d1 d2
                 | _, _ => false
                 end
            else true) rows) rows)
        [distance_rows idx p])
      (slider_values slider_car_passengers))
    [zero_flags idx] = true.
Proof. intros [-> | ->]; vm_compute; reflexivity. Qed.

(** X4: on every setting of the controls all six bars fit the chart: each
    value lies between the two bounds of the fixed vertical range (0 and
    100). *)
Theorem bars_within_ylim (model : string) (k p : Z) (out : Output) :
  In k (slider_values slider_distance_km) ->
  In p (slider_values slider_car_passengers) ->
  exists data fig,
    recalc model k p out = (Ok tt, [HTML (table_html data); Figure fig]) /\
    bar_labels fig = output_modes /\
    Forall (fun v => float_le (Z2float (fst (ylim fig))) v = true /\
                     float_le v (Z2float (snd (ylim fig))) = true)
           (bar_values fig).
Proof.
  intros Hk Hp.
  pose proof within_ylim_on_controls as H.
  rewrite forallb_forall in H.
  specialize (H (dataset_idx model)
                ltac:(destruct (dataset_idx_01 model) as [-> | ->]; simpl; tauto)).
  rewrite forallb_forall in H. specialize (H k Hk).
  rewrite forallb_forall in H. specialize (H p Hp).
  unfold within_ylim in H.
  destruct (float_of_int k) as [fk|] eqn:Ek; [|discriminate].
  destruct (float_of_int p) as [fp|] eqn:Ep; [|discriminate].
  apply andb_prop in H. destruct H as [Zp Hall]. apply negb_true_iff in Zp.
  assert (E : recalc_data model k p = Ok (data_of (dataset_idx model) fk fp)).
  { rewrite recalc_data_unfold, Ek, Ep. cbn [bind]. now rewrite Zp. }
  exists (data_of (dataset_idx model) fk fp).
  unfold recalc. rewrite E, bar_chart_data_of. eexists. split; [reflexivity|].
  cbn [bar_labels bar_values ylim fst snd]. split; [reflexivity|].
  rewrite Forall_forall. intros v Hv. apply in_map_iff in Hv.
  destruct Hv as (kv & <- & Hin).
  rewrite forallb_forall in Hall. specialize (Hall kv Hin).
  apply andb_prop in Hall. exact Hall.
Qed.

Lemma bars_within_ylim_witness :
  exists data fig,
    recalc "PSI" 400 1 [] = (Ok tt, [HTML (table_html data); Figure fig]) /\
    bar_labels fig = output_modes /\
    Forall (fun v => float_le (Z2float (fst (ylim fig))) v = true /\
                     float_le v (Z2float (snd (ylim fig))) = true)
           (bar_values fig).
Proof. apply (bars_within_ylim "PSI" 400 1 []); apply In_Z_eval; reflexivity. Defined.

(** X5: on every setting of the two sliders, no entry is smaller under PSI
    than under OWID. *)
Theorem psi_not_below_owid (k p : Z) (mode : string) :
  In k (slider_values slider_distance_km) ->
  In p (slider_values slider_car_passengers) ->
  In mode output_modes ->
  exists v_owid v_psi,
    result_at "OWID" k p mode = Ok v_owid /\
    result_at "PSI" k p mode = Ok v_psi /\
    float_le v_owid v_psi = true.
Proof.
  intros Hk Hp Hm.
  pose proof psi_not_below_on_controls as H.
  rewrite forallb_forall in H. specialize (H k Hk).
  rewrite forallb_forall in H. specialize (H p Hp).
  unfold psi_not_below in H.
  destruct (float_of_int k) as [fk|] eqn:Ek; [|discriminate].
  destruct (float_of_int p) as [fp|] eqn:Ep; [|discriminate].
  apply andb_prop in H. destruct H as [Zp Hall]. apply negb_true_iff in Zp.
  rewrite forallb_forall in Hall. specialize (Hall mode Hm).
  unfold result_at. rewrite !recalc_data_unfold, Ek, Ep. cbn [bind]. rewrite Zp. cbn [bind].
  rewrite !dict_getitem_data_of by assumption.
  eexists. eexists. split; [reflexivity|]. split; [reflexivity|]. exact Hall.
Qed.

Lemma psi_not_below_owid_witness :
  exists v_owid v_psi,
    result_at "OWID" 200 2 "electric car" = Ok v_owid /\
    result_at "PSI" 200 2 "electric car" = Ok v_psi /\
    float_le v_owid v_psi = true.
Proof.
  apply (psi_not_below_owid 200 2 "electric car");
    first [apply In_Z_eval|apply In_string_eval]; reflexivity.
Defined.

(** X6: on the settings of the sliders a longer distance never lowers an
    entry: between two distances k1 < k2, an entry whose factor is not zero
    grows strictly, and an entry whose factor is zero (bicycle and rail CH
    under OWID) stays equal. *)
Theorem longer_distance_grows (model : string) (k1 k2 p : Z) (mode : string) :
  In k1 (slider_values slider_distance_km) ->
  In k2 (slider_values slider_distance_km) ->
  In p (slider_values slider_car_passengers) ->
  k1 < k2 -> In mode output_modes ->
  exists f v1 v2,
    factor mode (dataset_idx model) = Ok f /\
    result_at model k1 p mode = Ok v1 /\
    result_at model k2 p mode = Ok v2 /\
    (is_zero f = false -> float_lt v1 v2 = true) /\
    (is_zero f = true -> float_eq v1 v2 = true).
Proof.
  intros Hk1 Hk2 Hp Hlt Hm.
  pose proof (grows_with_distance_on_controls _ (dataset_idx_01 model)) as H.
  rewrite forallb_forall in H. specialize (H _ (or_introl eq_refl)).
  rewrite forallb_forall in H. specialize (H p Hp).
  rewrite forallb_forall in H. specialize (H _ (or_introl eq_refl)).
  rewrite forallb_forall in H.
  specialize (H (k1, data_at (dataset_idx model) k1 p)
                (in_map (fun k => (k, data_at (dataset_idx model) k p)) _ k1 Hk1)).
  rewrite forallb_forall in H.
  specialize (H (k2, data_at (dataset_idx model) k2 p)
                (in_map (fun k => (k, data_at (dataset_idx model) k p)) _ k2 Hk2)).
  cbn [fst snd] in H. apply Z.ltb_lt in Hlt. rewrite Hlt in H.
  unfold data_at in H.
  destruct (float_of_int p) as [fp|] eqn:Ep;
    [destruct (is_zero fp) eqn:Zp|];
    destruct (float_of_int k1) as [f1|] eqn:E1;
    destruct (float_of_int k2) as [f2|] eqn:E2;
    cbv beta iota in H; try discriminate H.
  unfold grows in H. rewrite forallb_forall in H.
  specialize (H (mode, is_zero (factor_value mode (dataset_idx model)))
                (in_map (fun mode => (mode, is_zero (factor_value mode (dataset_idx model))))
                        _ mode Hm)).
  cbn [fst snd] in H. rewrite !dict_getitem_data_of in H by assumption.
  unfold result_at. rewrite !recalc_data_unfold, E1, E2, Ep. cbn [bind]. rewrite Zp. cbn [bind].
  rewrite !dict_getitem_data_of by assumption.
  exists (factor_value mode (dataset_idx model)). eexists. eexists.
  split; [apply factor_ok; [assumption|apply dataset_idx_01]|].
  split; [reflexivity|]. split; [reflexivity|].
  destruct (is_zero (factor_value mode (dataset_idx model)));
    split; intros Hz; try discriminate; exact H.
Qed.

Lemma longer_distance_grows_witness :
  exists f v1 v2,
    factor "coach bus" 0 = Ok f /\
    result_at "OWID" 10 5 "coach bus" = Ok v1 /\
    result_at "OWID" 20 5 "coach bus" = Ok v2 /\
    (is_zero f = false -> float_lt v1 v2 = true) /\
    (is_zero f = true -> float_eq v1 v2 = true).
Proof.
  apply (longer_distance_grows "OWID" 10 20 5 "coach bus");
    first [apply In_Z_eval|apply In_string_eval|idtac]; reflexivity.
Defined.

(** *** The interactive session

    [interactive_output(recalc, {...})] calls [recalc] once when it is
    created and again each time the value of one of the three controls
    changes, always with the current values of all three; an exception of
    the call is caught and shown in the widget [out]. *)

Record Controls : Type :=
  { model_value : string; distance_value : Z; passengers_value : Z }.

Inductive Event : Type :=
| SelectModel (v : string)
| SlideDistance (v : Z)
| SlidePassengers (v : Z).

(** The values the widgets offer. *)
Definition offered (e : Event) : Prop :=
  match e with
  | SelectModel v => In v (radio_options radio_model)
  | SlideDistance v => In v (slider_values slider_distance_km)
  | SlidePassengers v => In v (slider_values slider_car_passengers)
  end.

Definition set_control (c : Controls) (e : Event) : Controls :=
  match e with
  | SelectModel v =>
      {| model_value := v; distance_value := distance_value c;
         passengers_value := passengers_value c |}
  | SlideDistance v =>
      {| model_value := model_value c; distance_value := v;
         passengers_value := passengers_value c |}
  | SlidePassengers v =>
      {| model_value := model_value c; distance_value := distance_value c;
         passengers_value := v |}
  end.

(** Setting a control to the value it has notifies nobody. *)
Definition changes (c : Controls) (e : Event) : bool :=
  match e with
  | SelectModel v => negb (String.eqb v (model_value c))
  | SlideDistance v => negb (v =? distance_value c)
  | SlidePassengers v => negb (v =? passengers_value c)
  end.

Record Session : Type :=
  { controls : Controls;
    output_shown : Output;          (* the content of [output] *)
    out_traceback : option exn }.   (* the content of [out] *)

(** The observer [interactive_output] registers on the three controls. *)
Definition observer (c : Controls) (output : Output) : Session :=
  let r := recalc (model_value c) (distance_value c) (passengers_value c) output in
  {| controls := c;
     output_shown := snd r;
     out_traceback := match fst r with
                      | Ok _ => None
                      | Raise e => Some e
                      end |}.

Definition initial_controls : Controls :=
  {| model_value := radio_value radio_model;
     distance_value := slider_value slider_distance_km;
     passengers_value := slider_value slider_car_passengers |}.

(** The session once the second cell has run. *)
Definition initial_session : Session := observer initial_controls [].

Definition handle (s : Session) (e : Event) : Session :=
  if changes (controls s) e
  then observer (set_control (controls s) e) (output_shown s)
  else s.

Definition run (events : list Event) : Session := fold_left handle events initial_session.

(** The controls hold offered values, nothing was raised, and the output is
    the table and chart of the current values. *)
Definition consistent (s : Session) : Prop :=
  In (model_value (controls s)) (radio_options radio_model) /\
  In (distance_value (controls s)) (slider_values slider_distance_km) /\
  In (passengers_value (controls s)) (slider_values slider_car_passengers) /\
  out_traceback s = None /\
  exists data fig,
    recalc_data (model_value (controls s)) (distance_value (controls s))
                (passengers_value (controls s)) = Ok data /\
    bar_chart data = Ok fig /\
    output_shown s = [HTML (table_html data); Figure fig].

Lemma observer_consistent c output :
  In (model_value c) (radio_options radio_model) ->
  In (distance_value c) (slider_values slider_distance_km) ->
  In (passengers_value c) (slider_values slider_car_passengers) ->
  consistent (observer c output).
Proof.
  intros Hm Hk Hp. unfold consistent, observer. cbn [controls output_shown out_traceback].
  destruct (recalc_on_controls (model_value c) _ _ output Hk Hp) as (data & E & _).
  destruct (recalc_renders _ _ _ _ output E) as (fig & Hf & _ & _ & R).
  rewrite R. cbn [fst snd]. repeat split; try assumption. eauto.
Qed.

Lemma handle_consistent s e : consistent s -> offered e -> consistent (handle s e).
Proof.
  intros Hs He. unfold handle. destruct (changes (controls s) e); [|assumption].
  destruct Hs as (Hm & Hk & Hp & _).
  apply observer_consistent; destruct e; cbn [set_control model_value distance_value passengers_value];
    assumption.
Qed.

Lemma handle_controls s e : controls (handle s e) = set_control (controls s) e.
Proof.
  unfold handle. destruct (changes (controls s) e) eqn:C; [reflexivity|].
  destruct s as [[m k p] o t]. cbn [controls] in *.
  destruct e as [v|v|v]; cbn [changes set_control model_value distance_value passengers_value] in *;
    apply negb_false_iff in C.
  - apply String.eqb_eq in C. now subst.
  - apply Z.eqb_eq in C. now subst.
  - apply Z.eqb_eq in C. now subst.
Qed.

(** X7: in an interactive session the display never goes stale and never
    fails: after any sequence of changes to the offered values of the three
    controls, the controls hold the last value set for each, no exception
    was raised, and the output holds exactly the table and the chart of the
    dictionary for the values the controls hold. *)
Theorem session_consistent (events : list Event) :
  Forall offered events ->
  consistent (run events) /\
  controls (run events) = fold_left set_control events initial_controls.
Proof.
  intros H. unfold run.
  assert (H0 : consistent initial_session).
  { apply observer_consistent;
      [apply In_string_eval|apply In_Z_eval|apply In_Z_eval]; reflexivity. }
  assert (C0 : controls initial_session = initial_controls) by reflexivity.
  revert H0 C0. generalize initial_session as s, initial_controls as c.
  induction H as [|e events He Hes IH]; intros s c Hs Hc; cbn [fold_left].
  - split; assumption.
  - apply IH.
    + now apply handle_consistent.
    + rewrite handle_controls. now rewrite Hc.
Qed.

Lemma session_consistent_witness :
  consistent (run [SlideDistance 400; SelectModel "OWID"; SlidePassengers 5;
                   SlideDistance 400]).
Proof.
  apply (session_consistent [SlideDistance 400; SelectModel "OWID"; SlidePassengers 5;
                             SlideDistance 400]).
  repeat (apply Forall_cons;
          [cbn [offered]; first [apply In_string_eval|apply In_Z_eval]; reflexivity|]).
  apply Forall_nil.
Defined.

(** *** The conversion of the table to kilograms *)

(** The dictionary comprehension of the first cell, on any table. *)
Definition per_km_table (table : dict (list Z)) : result (dict (list float)) :=
  mapM (fun kv : string * list Z => r <- per_1000 (snd kv) ;; Ok (fst kv, r)) table.

(** [f] is [a / 1000] to within one unit in the last place: [+0.0] for
    [a = 0], and otherwise a float with a full mantissa [m], an exponent
    [e] and the sign of [a], with [(m - 1) * 2^e <= |a| / 1000 < (m + 1) * 2^e]. *)
Definition thousandth (a : Z) (f : float) : Prop :=
  match f with
  | S754_zero s => a = 0 /\ s = false
  | S754_finite s m e =>
      a <> 0 /\ s = (a <? 0) /\ 2 ^ 52 <= Zpos m < 2 ^ 53 /\ e <= 0 /\
      1000 * (Zpos m - 1) <= Z.abs a * 2 ^ (- e) < 1000 * (Zpos m + 1)
  | _ => False
  end.

(** A row of the table next to its converted row. *)
Definition converted (kv : string * list Z) (kv' : string * list float) : Prop :=
  fst kv' = fst kv /\
  exists a b rest fa fb,
    snd kv = a :: b :: rest /\ snd kv' = [fa; fb] /\
    thousandth a fa /\ thousandth b fb.

Lemma per_1000_short v : (List.length v < 2)%nat -> per_1000 v = Raise IndexError.
Proof.
  destruct v as [|a [|b rest]]; simpl List.length; intros H; try lia; reflexivity.
Qed.

Lemma pow2_le_inv (n b : Z) : 0 <= n -> 0 <= b -> 2 ^ n < 2 ^ b -> n < b.
Proof.
  intros Hn Hb H. destruct (Z_lt_le_dec n b) as [|Hge]; [assumption|].
  apply (Z.pow_le_mono_r 2) in Hge; lia.
Qed.

Lemma thousandth_bounds (a m' m'' E e'' : Z) :
  1 <= a < 2 ^ 53 ->
  2 ^ 52 <= m'' < 2 ^ 53 -> 2 ^ 52 <= m' < 2 ^ 53 ->
  E <= 0 -> E <= e'' ->
  1000 * m' <= a * 2 ^ (- E) < 1000 * (m' + 1) ->
  m' <= m'' * 2 ^ (e'' - E) <= m' + 1 ->
  e'' <= 0 /\ 1000 * (m'' - 1) <= a * 2 ^ (- e'') < 1000 * (m'' + 1).
Proof.
  intros Ha Hm'' Hm' HE HEe HX HM.
  assert (H52 : 0 < 2 ^ 52) by reflexivity.
  assert (H53 : 2 ^ 53 = 2 * 2 ^ 52) by reflexivity.
  (* the two exponents differ by at most one *)
  assert (Hd : e'' - E = 0 \/ e'' - E = 1).
  { destruct (Z_lt_le_dec (e'' - E) 2) as [|Hge]; [lia|]. exfalso.
    apply (Z.pow_le_mono_r 2) in Hge; [|lia]. change (2 ^ 2) with 4 in Hge.
    assert (m'' * 4 <= m'' * 2 ^ (e'' - E)) by (apply Z.mul_le_mono_nonneg_l; lia).
    lia. }
  (* a / 1000 is below 2^44 *)
  assert (HE9 : E <= -9).
  { destruct (Z_lt_le_dec (-9) E) as [Hgt|]; [|assumption]. exfalso.
    assert (Hp : 2 ^ (- E) <= 2 ^ 8) by (apply Z.pow_le_mono_r; lia).
    change (2 ^ 8) with 256 in Hp.
    assert (Hpp : 0 < 2 ^ (- E)) by (apply Z.pow_pos_nonneg; lia).
    assert (a * 2 ^ (- E) <= 2 ^ 53 * 256).
    { apply Z.mul_le_mono_nonneg; lia. }
    lia. }
  split; [lia|].
  destruct Hd as [Hd|Hd].
  - assert (e'' = E) as -> by lia.
    rewrite Hd, Z.pow_0_r, Z.mul_1_r in HM. lia.
  - assert (Hs : 2 ^ (- E) = 2 * 2 ^ (- e'')).
    { replace (- E) with (1 + - e'') by lia.
      rewrite Z.pow_add_r by lia. reflexivity. }
    rewrite Hd in HM. change (2 ^ 1) with 2 in HM.
    rewrite Hs in HX. lia.
Qed.

Lemma int_truediv_1000_eq a :
  int_truediv a 1000 = Ok (float_div (Z2float a) (Z2float 1000)).
Proof. reflexivity. Qed.

(** The quotient of a positive integer below 2^53 by 1000. *)
Lemma int_truediv_1000_pos a :
  1 <= a < 2 ^ 53 ->
  exists m e, int_truediv a 1000 = Ok (S754_finite false m e) /\
              2 ^ 52 <= Zpos m < 2 ^ 53 /\ e <= 0 /\
              1000 * (Zpos m - 1) <= a * 2 ^ (- e) < 1000 * (Zpos m + 1).
Proof.
  intros Ha.
  destruct (float_of_int_exact a) as (mx & ex & Ex & Hex & Hx & Hmx); try lia.
  destruct (float_of_int_inv _ _ Ex) as (Zx & _).
  assert (Hex' : -52 <= ex).
  { assert (H : 2 ^ (- ex) < 2 ^ 53).
    { assert (0 < 2 ^ (- ex)) by (apply Z.pow_pos_nonneg; lia).
      unfold prec in Hmx. nia. }
    apply pow2_le_inv in H; lia. }
  pose (my := 8796093022208000%positive).
  assert (Ey : Z2float 1000 = S754_finite false my (-43)) by reflexivity.
  destruct (SFdiv_by_integer prec emax prec_pos mx my ex (-43) 1000)
    as (m'' & e'' & E & m' & Ed & Hm'' & Hm' & HE & HEe & HX & HM);
    try assumption; try (rewrite ?emin_binary64; unfold prec, emax; lia);
    try reflexivity.
  assert (HXa : Zpos mx * 2 ^ (ex - E) = a * 2 ^ (- E)).
  { rewrite Hx, <- Z.mul_assoc, <- Z.pow_add_r by lia. f_equal. f_equal. lia. }
  rewrite HXa in HX. unfold prec in Hm'', Hm'. change (53 - 1) with 52 in Hm'', Hm'.
  destruct (thousandth_bounds a m' (Zpos m'') E e'') as [He'' Hb]; try assumption; try lia.
  exists m'', e''. rewrite int_truediv_1000_eq, <- Zx, Ey.
  unfold float_div. rewrite Ed. auto.
Qed.

(** The quotient by 1000 of any integer below 2^53 in magnitude. *)
Lemma int_truediv_1000 a :
  Z.abs a < 2 ^ 53 -> exists f, int_truediv a 1000 = Ok f /\ thousandth a f.
Proof.
  intros Ha. destruct (Z.lt_trichotomy a 0) as [Hneg|[->|Hpos]].
  - destruct (int_truediv_1000_pos (- a)) as (m & e & E & Hm & He & Hb); [lia|].
    exists (S754_finite true m e). split.
    + rewrite int_truediv_1000_eq in *. injection E as E'.
      replace a with (- - a) at 1 by lia.
      rewrite (Z2float_opp (- a)) by lia. rewrite float_div_neg_l.
      change (binary_round prec emax false 1000 0) with (Z2float 1000) in E'.
      rewrite E'. reflexivity.
    + cbn [thousandth]. replace (Z.abs a) with (- a) by lia.
      repeat split; lia.
  - exists (S754_zero false). split; [reflexivity|]. split; reflexivity.
  - destruct (int_truediv_1000_pos a) as (m & e & E & Hm & He & Hb); [lia|].
    exists (S754_finite false m e). split; [exact E|].
    cbn [thousandth]. replace (Z.abs a) with a by lia.
    repeat split; lia.
Qed.

Lemma per_1000_converts a b rest :
  Z.abs a < 2 ^ 53 -> Z.abs b < 2 ^ 53 ->
  exists fa fb, per_1000 (a :: b :: rest) = Ok [fa; fb] /\
                thousandth a fa /\ thousandth b fb.
Proof.
  intros Ha Hb.
  destruct (int_truediv_1000 a Ha) as (fa & Ea & Ta).
  destruct (int_truediv_1000 b Hb) as (fb & Eb & Tb).
  exists fa, fb. unfold per_1000.
  change (list_getitem (a :: b :: rest) 0) with (Ok (A:=Z) a).
  change (list_getitem (a :: b :: rest) 1) with (Ok (A:=Z) b).
  cbn [bind]. rewrite Ea. cbn [bind]. rewrite Eb. auto.
Qed.

(** X8: on a table whose rows start with integers below 2^53 in magnitude,
    the comprehension that converts grams to kilograms keeps the keys of the
    table in their order and turns the first two numbers of each row into
    their quotients by 1000, dropping any further ones: each quotient is
    +0.0 for the number 0 and otherwise a float with a full mantissa and the
    sign of the number, within one unit in the last place of the exact
    quotient.  It raises IndexError when a row has fewer than two
    numbers. *)
Theorem per_km_table_spec (table : dict (list Z)) :
  Forall (fun kv => Forall (fun a => Z.abs a < 2 ^ 53) (firstn 2 (snd kv))) table ->
  (Forall (fun kv => (2 <= List.length (snd kv))%nat) table ->
   exists table', per_km_table table = Ok table' /\
                  keys table' = keys table /\
                  Forall2 converted table table') /\
  (Exists (fun kv => (List.length (snd kv) < 2)%nat) table ->
   per_km_table table = Raise IndexError).
Proof.
  intros Hr. split.
  - intros Hl. induction table as [|[key v] table IH].
    + exists []. repeat split. constructor.
    + inversion Hr as [|? ? Hv Hr']; subst. inversion Hl as [|? ? Lv Hl']; subst.
      destruct (IH Hr' Hl') as (table' & E & Hk & Hc).
      destruct v as [|a [|b rest]]; simpl in Lv; try lia.
      cbn [snd firstn] in Hv.
      inversion Hv as [|? ? Ha Hv']; subst. inversion Hv' as [|? ? Hb _]; subst.
      destruct (per_1000_converts a b rest Ha Hb) as (fa & fb & Ep & Ta & Tb).
      exists ((key, [fa; fb]) :: table').
      unfold per_km_table in *. cbn [mapM snd fst]. rewrite Ep. cbn [bind].
      rewrite E. cbn [bind]. split; [reflexivity|]. split.
      * unfold keys in *. cbn [map fst]. now rewrite Hk.
      * constructor; [|assumption]. split; [reflexivity|].
        exists a, b, rest, fa, fb. auto.
  - induction table as [|[key v] table IH]; intros H.
    + inversion H.
    + inversion Hr as [|? ? Hv Hr']; subst.
      unfold per_km_table in *. cbn [mapM snd fst].
      destruct (Nat.lt_ge_cases (List.length v) 2) as [Hs|Hl].
      * rewrite (per_1000_short v Hs). reflexivity.
      * destruct v as [|a [|b rest]]; simpl in Hl; try lia.
        cbn [snd firstn] in Hv.
        inversion Hv as [|? ? Ha Hv']; subst. inversion Hv' as [|? ? Hb _]; subst.
        destruct (per_1000_converts a b rest Ha Hb) as (fa & fb & Ep & _).
        rewrite Ep. cbn [bind].
        inversion H as [x l Hx|x l Hx]; subst; [simpl in Hx; lia|].
        rewrite (IH Hr' Hx). reflexivity.
Qed.

Lemma per_km_table_spec_witness :
  (exists table', per_km_table gco2e_per_km = Ok table' /\
                  keys table' = keys gco2e_per_km /\
                  Forall2 converted gco2e_per_km table') /\
  per_km_table [("rail CH", [0; 7]); ("lift", [-250])] = Raise IndexError.
Proof.
  split.
  - apply (per_km_table_spec gco2e_per_km); unfold gco2e_per_km.
    + repeat (apply Forall_cons;
              [cbn [snd firstn]; repeat (apply Forall_cons; [reflexivity|]); apply Forall_nil|]).
      apply Forall_nil.
    + repeat (apply Forall_cons; [cbn [snd List.length]; lia|]). apply Forall_nil.
  - apply (per_km_table_spec [("rail CH", [0; 7]); ("lift", [-250])]).
    + repeat (apply Forall_cons;
              [cbn [snd firstn]; repeat (apply Forall_cons; [reflexivity|]); apply Forall_nil|]).
      apply Forall_nil.
    + apply Exists_cons_tl. apply Exists_cons_hd. cbn [snd List.length]. lia.
Defined.

(** *** The table and the chart of any dictionary *)

(** What [table_html] holds before the loop. *)
Definition table_header : string :=
  "<table style='border-collapse: collapse'>"
    ++ "<tr><th style='border: 1px solid black;'>Mode </th><th style='border: 1px solid black;'>kg CO2e / passenger</th></tr>".

Lemma dict_getitem_app {V : Type} (pre post : dict V) key :
  ~ In key (keys pre) -> dict_getitem (pre ++ post)%list key = dict_getitem post key.
Proof.
  induction pre as [|[k v] pre IH]; intros H; [reflexivity|].
  cbn [app dict_getitem]. unfold keys in H. cbn [map fst In] in H.
  destruct (String.eqb_spec key k) as [->|Hne]; [tauto|]. apply IH. tauto.
Qed.

Lemma mapM_getitem_suffix {V : Type} (post pre : dict V) :
  NoDup (keys (pre ++ post)%list) ->
  mapM (dict_getitem (pre ++ post)%list) (keys post) = Ok (map snd post).
Proof.
  revert pre. induction post as [|[k v] post IH]; intros pre H; [reflexivity|].
  unfold keys in *. cbn [map fst snd mapM].
  assert (Hk : ~ In k (map fst pre)).
  { rewrite map_app in H. cbn [map fst] in H. apply NoDup_remove_2 in H.
    intros Hin. apply H. apply in_or_app. now left. }
  rewrite (dict_getitem_app pre ((k, v) :: post) k Hk).
  cbn [dict_getitem]. rewrite String.eqb_refl. cbn [bind].
  specialize (IH (pre ++ [(k, v)])%list).
  rewrite <- app_assoc in IH. cbn [app] in IH. rewrite IH by assumption. reflexivity.
Qed.

Lemma string_app_assoc (a b c : string) : (a ++ b) ++ c = a ++ (b ++ c).
Proof. induction a as [|ch a IH]; simpl; [reflexivity|now rewrite IH]. Qed.

Lemma string_app_nil_r (a : string) : a ++ "" = a.
Proof. induction a as [|ch a IH]; simpl; [reflexivity|now rewrite IH]. Qed.

Lemma fold_table_rows (data : dict float) (html : string) :
  fold_left (fun html kv => html ++ table_row kv) data html
  = html ++ fold_right String.append "" (map table_row data).
Proof.
  revert html. induction data as [|kv data IH]; intros html; cbn [fold_left fold_right map].
  - now rewrite string_app_nil_r.
  - now rewrite IH, string_app_assoc.
Qed.

(** X9: the table and the chart show the same entries in the same order.
    For any dictionary (its keys are distinct), the chart raises nothing and
    plots the keys against their values in dictionary order, in the fixed
    range 0 to 100, and the table is the header row followed by one row per
    entry in that order. *)
Theorem table_and_chart_agree (data : dict float) :
  NoDup (keys data) ->
  (exists fig, bar_chart data = Ok fig /\
               bar_labels fig = keys data /\
               bar_values fig = map snd data /\
               ylim fig = (0, 100)) /\
  table_html data
  = table_header ++ fold_right String.append "" (map table_row data) ++ "</table>".
Proof.
  intros H. split.
  - pose proof (mapM_getitem_suffix data [] H) as E. cbn [app] in E.
    unfold bar_chart. rewrite E. cbn [bind]. eexists. repeat split.
  - unfold table_html. fold table_header. now rewrite fold_table_rows, string_app_assoc.
Qed.

Lemma table_and_chart_agree_witness :
  exists fig, bar_chart [("a", Z2float 1); ("b", Z2float 2)] = Ok fig /\
              bar_values fig = [Z2float 1; Z2float 2].
Proof.
  destruct (table_and_chart_agree [("a", Z2float 1); ("b", Z2float 2)])
    as [(fig & Hf & _ & Hv & _) _].
  - repeat constructor; simpl; intuition discriminate.
  - exists fig. split; assumption.
Defined.

(** *** The one-decimal display *)

(** The distance of [z * den] from [num], for an integer candidate [z]. *)
Lemma candidate_distance num den z :
  0 < den ->
  let q := num / den in
  let r := num mod den in
  num - z * den = r + den * (q - z) /\
  0 <= r < den /\
  (z < q -> den <= den * (q - z)) /\
  (z = q -> den * (q - z) = 0) /\
  (z = q + 1 -> den * (q - z) = - den) /\
  (q + 1 < z -> den * (q - z) <= - (2 * den)).
Proof.
  intros Hden q r.
  pose proof (Z.div_mod num den ltac:(lia)) as Hdm. fold q r in Hdm.
  pose proof (Z.mod_pos_bound num den Hden) as Hr. fold r in Hr.
  split; [rewrite Hdm at 1; ring|]. split; [assumption|].
  split; [|split; [|split]].
  - intros Hz. rewrite <- (Z.mul_1_r den) at 1. apply Z.mul_le_mono_nonneg_l; lia.
  - intros ->. replace (q - q) with 0 by lia. ring.
  - intros ->. replace (q - (q + 1)) with (-1) by lia. ring.
  - intros Hz. replace (- (2 * den)) with (den * (-2)) by ring.
    apply Z.mul_le_mono_nonneg_l; lia.
Qed.

Lemma round_half_even_nearest num den :
  0 < den ->
  let n := round_half_even num den in
  (forall z, Z.abs (num - n * den) <= Z.abs (num - z * den)) /\
  (forall z, z <> n -> Z.abs (num - n * den) = Z.abs (num - z * den) -> Z.even n = true).
Proof.
  intros Hden n.
  assert (Hn : (n = num / den \/ n = num / den + 1) /\
               (2 * (num mod den) < den -> n = num / den) /\
               (den < 2 * (num mod den) -> n = num / den + 1) /\
               (2 * (num mod den) = den -> Z.even n = true)).
  { unfold n, round_half_even.
    destruct (Z.compare_spec (2 * (num mod den)) den) as [E|L|G].
    - destruct (Z.even (num / den)) eqn:Ev.
      + repeat split; auto; lia.
      + repeat split; auto; try lia;
          try (intros _; rewrite Z.even_add, Ev; reflexivity).
    - repeat split; auto; lia.
    - repeat split; auto; lia. }
  destruct Hn as (Hn & Hlo & Hhi & Htie).
  destruct (candidate_distance num den n Hden) as (En & Hr & _ & Hq & Hq1 & _).
  split.
  - intros z.
    destruct (candidate_distance num den z Hden) as (Ez & _ & Hz1 & Hz2 & Hz3 & Hz4).
    rewrite En, Ez.
    destruct (Z.lt_trichotomy z (num / den)) as [Hz|[Hz|Hz]];
      [specialize (Hz1 Hz)|specialize (Hz2 Hz)|];
      try (destruct (Z.eq_dec z (num / den + 1)) as [Hz'|Hz'];
           [specialize (Hz3 Hz')|specialize (Hz4 ltac:(lia))]);
      destruct Hn as [Hn|Hn]; try specialize (Hq Hn); try specialize (Hq1 Hn); lia.
  - intros z Hzn Heq.
    destruct (candidate_distance num den z Hden) as (Ez & _ & Hz1 & Hz2 & Hz3 & Hz4).
    rewrite En, Ez in Heq. apply Htie.
    destruct (Z.lt_trichotomy z (num / den)) as [Hz|[Hz|Hz]];
      [specialize (Hz1 Hz)|specialize (Hz2 Hz)|];
      try (destruct (Z.eq_dec z (num / den + 1)) as [Hz'|Hz'];
           [specialize (Hz3 Hz')|specialize (Hz4 ltac:(lia))]);
      destruct Hn as [Hn|Hn]; try specialize (Hq Hn); try specialize (Hq1 Hn); lia.
Qed.

(** The value [m * 2^e] in tenths, as a fraction of integers. *)
Definition tenths_num (m : positive) (e : Z) : Z :=
  match e with
  | Zneg _ => 10 * Zpos m
  | _ => 10 * Zpos m * 2 ^ e
  end.

Definition tenths_den (e : Z) : Z :=
  match e with
  | Zneg k => 2 ^ Zpos k
  | _ => 1
  end.

(** X10: a table cell shows its entry rounded to the nearest tenth, ties
    going to the even tenth.  For a finite float of magnitude [m * 2^e] the
    text is the sign, the integer [n / 10], a point and the digit
    [n mod 10], where [n] is the integer nearest to ten times the magnitude
    (even when two are equally near). *)
Theorem format_1f_nearest_tenth (s : bool) (m : positive) (e : Z) :
  let n := tenths m e in
  format_1f (S754_finite s m e)
  = sign_str s ++ str_of_nat_Z (n / 10) ++ "." ++ str_of_nat_Z (n mod 10) /\
  0 <= n /\ 0 <= n mod 10 < 10 /\
  (forall z, Z.abs (tenths_num m e - n * tenths_den e)
             <= Z.abs (tenths_num m e - z * tenths_den e)) /\
  (forall z, z <> n ->
             Z.abs (tenths_num m e - n * tenths_den e)
             = Z.abs (tenths_num m e - z * tenths_den e) ->
             Z.even n = true).
Proof.
  intros n. split; [reflexivity|].
  assert (Hden : 0 < tenths_den e).
  { destruct e as [|p|p]; cbn [tenths_den]; [lia|lia|apply Z.pow_pos_nonneg; lia]. }
  assert (Hnum : 0 <= tenths_num m e).
  { destruct e as [|p|p]; cbn [tenths_num]; [rewrite Z.pow_0_r; lia| |lia].
    apply Z.mul_nonneg_nonneg; [lia|]. apply Z.pow_nonneg. lia. }
  assert (En : n = round_half_even (tenths_num m e) (tenths_den e)).
  { unfold n, tenths, tenths_num, tenths_den. destruct e as [|p|p]; try reflexivity.
    - unfold round_half_even. rewrite Z.div_1_r, Z.mod_1_r. reflexivity.
    - unfold round_half_even. rewrite Z.div_1_r, Z.mod_1_r. reflexivity. }
  destruct (round_half_even_nearest (tenths_num m e) (tenths_den e) Hden) as [Hnear Htie].
  rewrite <- En in Hnear, Htie.
  split; [|split; [apply Z.mod_pos_bound; lia|split; assumption]].
  rewrite En. unfold round_half_even. cbv zeta.
  pose proof (Z.div_pos (tenths_num m e) (tenths_den e) Hnum Hden) as Hq.
  destruct (2 * (tenths_num m e mod tenths_den e) ?= tenths_den e);
    [destruct (Z.even (tenths_num m e / tenths_den e))| |]; lia.
Qed.

(** *** Zeros in the result *)

(** The factors of the six reported modes are [+0.0] or positive floats with
    full mantissas below 1/2. *)
Lemma output_factor_shape mode idx :
  In mode output_modes -> idx = 0 \/ idx = 1 ->
  factor_value mode idx = S754_zero false \/
  exists mf ef,
    factor_value mode idx = S754_finite false mf ef /\
    2 ^ (prec - 1) <= Zpos mf < 2 ^ prec /\ -60 <= ef <= -55.
Proof.
  intros Hm Hi. unfold output_modes in Hm. simpl in Hm.
  repeat (destruct Hm as [<-|Hm];
          [destruct Hi as [-> | ->];
           first [left; vm_compute; reflexivity
                 |right; eexists; eexists; (split; [vm_compute; reflexivity|]);
                  (split; split; [discriminate|reflexivity|discriminate|discriminate])]|]).
  contradiction.
Qed.

(** X11: nothing underflows and nothing overflows.  For a distance
    0 <= k < 2^1023 and an occupancy 1 <= p < 2^53 every entry is a finite
    float, and it is a zero only when the distance is 0 or the table has 0
    (no data) for that mode and dataset. *)
Theorem zero_only_without_data (model : string) (k p : Z) (mode : string) :
  0 <= k -> k < 2 ^ 1023 -> 1 <= p -> p < 2 ^ 53 -> In mode output_modes ->
  exists f v,
    factor mode (dataset_idx model) = Ok f /\
    result_at model k p mode = Ok v /\
    is_finite v = true /\
    (is_zero v = true <-> k = 0 \/ is_zero f = true).
Proof.
  intros Hk Hk' Hp Hp' Hm.
  pose proof (dataset_idx_01 model) as Hi.
  exists (factor_value mode (dataset_idx model)).
  destruct (float_of_int_exact p Hp Hp') as (my & ey & Ep & Hey & Hy & Hny).
  assert (Hfac := factor_ok mode _ Hm Hi).
  destruct (Z.eq_dec k 0) as [->|Hk0].
  - (* distance 0 *)
    assert (E : recalc_data model 0 p = Ok (data_of (dataset_idx model) (S754_zero false)
                                                   (S754_finite false my ey))).
    { rewrite recalc_data_unfold, Ep. reflexivity. }
    destruct (zero_distance model p _ mode E Hm) as (v & Hv & Zv).
    exists v. unfold result_at. rewrite E. cbn [bind].
    split; [assumption|]. split; [assumption|]. split.
    + destruct v; try discriminate. reflexivity.
    + split; auto.
  - destruct (float_of_int_normal k ltac:(lia) Hk') as (mk & ek & Ek & Hnk & Hek).
    unfold result_at. rewrite recalc_data_unfold, Ek, Ep. cbn [bind is_zero].
    rewrite dict_getitem_data_of by assumption. eexists.
    split; [assumption|]. split; [reflexivity|].
    unfold entry. cbn [snd].
    destruct (output_factor_shape mode _ Hm Hi) as [Ef|(mf & ef & Ef & Hnf & Hef)]; rewrite Ef.
    + (* no data *)
      cbn [float_mul float_div SFmul SFdiv xorb].
      unfold float_mul, float_div. cbn [SFmul SFdiv xorb].
      destruct (is_car mode); split; try reflexivity; split; auto.
    + destruct (SFmul_normal prec emax prec_pos mf mk ef ek Hnf Hnk) as (mx & ex & Ex & Hnx & Hex);
        try (rewrite ?emin_binary64; unfold prec, emax; lia).
      unfold float_mul. rewrite Ex. destruct (is_car mode).
      * destruct (SFdiv_by_integer prec emax prec_pos mx my ex ey p)
          as (m'' & e'' & _ & _ & Ed & _); try assumption;
          try (rewrite ?emin_binary64; unfold prec, emax in *; lia).
        unfold float_div. rewrite Ed. split; [reflexivity|].
        split; [discriminate|]. intros [?|?]; [lia|discriminate].
      * split; [reflexivity|]. split; [discriminate|]. intros [?|?]; [lia|discriminate].
Qed.

Lemma zero_only_without_data_witness :
  exists f v,
    factor "rail CH" 0 = Ok f /\
    result_at "OWID" 200 2 "rail CH" = Ok v /\
    is_finite v = true /\
    (is_zero v = true <-> 200 = 0 \/ is_zero f = true).
Proof.
  apply (zero_only_without_data "OWID" 200 2 "rail CH");
    first [lia|reflexivity|apply In_string_eval; reflexivity].
Defined.
